(** * Taipei_Parking_Map: the acquisition-and-normalization pipeline

    A shallow embedding of [src/services/api.ts] and of the coordinate
    service ([convertTWD97ToWGS84]), with the parts of the JavaScript
    runtime they rely on: numbers, strings, JSON values, [parseInt],
    [parseFloat], [Map], [fetch].

    Layout:
    - [JS]: the runtime (numbers, strings, values, built-ins);
    - the coordinate service, over an abstract projection library;
    - the network and the state monad the asynchronous code runs in;
    - [fetchWithRetry], [fetchAllNTPCData], [getProp], the two source
      normalizers and [fetchParkingData];
    - the properties of the pipeline. *)

From Stdlib Require Import ZArith Lia Bool Ascii.
From stdpp Require Import gmap strings list pretty.
From Equations Require Import Equations.

#[local] Set Warnings "-register-all".
#[local] Open Scope Z_scope.

(** ** The JavaScript runtime *)

Module JS.

(** *** Numbers

    A JavaScript number is an IEEE-754 binary64 value.  [Finite m e] is
    the real [m * 2^e].  The two zeros are identified: no operation used by
    the pipeline ([!x], [x !== 0], [x || d], [isNaN]) tells them apart.
    Values built by [mk_finite] are canonical: an integer is [Finite z 0],
    and otherwise [e < 0] and [m] is odd. *)

Inductive number : Type :=
| NaN
| Infinity (negative : bool)
| Finite (m e : Z).

#[global] Instance number_eq_dec : EqDecision number.
Proof. solve_decision. Defined.

(** The number denoted by an integer literal of the source, such as [-9]. *)
Definition num (z : Z) : number := Finite z 0.

Definition isNaN (x : number) : bool :=
  match x with NaN => true | _ => false end.

(** [x === 0] *)
Definition is_zero (x : number) : bool :=
  match x with Finite m _ => m =? 0 | _ => false end.

(** ToBoolean on numbers: [0] and [NaN] are falsy. *)
Definition number_truthy (x : number) : bool := negb (is_zero x || isNaN x).

(** The value is a mathematical integer. *)
Definition is_integer (x : number) : bool :=
  match x with
  | Finite m e => (0 <=? e) || (m mod 2 ^ (- e) =? 0)
  | _ => false
  end.

Definition mk_finite (m e : Z) : number :=
  if m =? 0 then Finite 0 0
  else if 0 <=? e then Finite (m * 2 ^ e) 0
  else let g := Z.gcd m (2 ^ (- e)) in Finite (m / g) (e + Z.log2 g).

Definition canonical (x : number) : number :=
  match x with Finite m e => mk_finite m e | _ => x end.

(** The integer nearest to [n / d], ties to even ([0 <= n], [0 < d]). *)
Definition round_half_even (n d : Z) : Z :=
  let q := n / d in
  let r := n mod d in
  if 2 * r <? d then q
  else if d <? 2 * r then q + 1
  else if Z.even q then q else q + 1.

(** The integer [sign * a] with the sign of [negative]. *)
Definition signed (negative : bool) (a : Z) : Z := if negative then - a else a.

(** [to_double negative n d] is the binary64 value nearest to [n / d]
    (round to nearest, ties to even; 53 significant bits, least exponent
    [-1074], overflow to infinity from [2^1024 - 2^970] on), with the
    sign [negative]; [0 <= n], [0 < d]. *)
Definition to_double (negative : bool) (n d : Z) : number :=
  if n =? 0 then Finite 0 0
  else
    let lg := Z.log2 n - Z.log2 d in
    let below := if 0 <=? lg then n <? d * 2 ^ lg else n * 2 ^ (- lg) <? d in
    let fl := if below then lg - 1 else lg in
    let e := Z.max (fl - 52) (-1074) in
    let m := if 0 <=? e then round_half_even n (d * 2 ^ e)
             else round_half_even (n * 2 ^ (- e)) d in
    if 2 ^ 1024 <=? m * 2 ^ e then Infinity negative
    else mk_finite (signed negative m) e.

(** The Number value of a mathematical integer (what [parseInt] returns for
    its digits). *)
Definition F (z : Z) : number :=
  let a := Z.abs z in
  if a <? 2 ^ 53 then Finite z 0
  else
    let sh := Z.log2 a - 52 in
    let m := round_half_even a (2 ^ sh) in
    if 2 ^ 1024 <=? m * 2 ^ sh then Infinity (z <? 0)
    else Finite (signed (z <? 0) (m * 2 ^ sh)) 0.

(** *** Strings

    A string is the sequence of the bytes of its UTF-8 encoding.  Case
    conversion is that of ASCII: the field names of the two feeds are
    ASCII. *)

Definition code (c : ascii) : Z := Z.of_N (Ascii.N_of_ascii c).

Definition char_of (z : Z) : ascii := Ascii.ascii_of_N (Z.to_N z).

Fixpoint map_string (f : ascii -> ascii) (s : string) : string :=
  match s with
  | EmptyString => EmptyString
  | String c rest => String (f c) (map_string f rest)
  end.

Definition lower_char (c : ascii) : ascii :=
  if (65 <=? code c) && (code c <=? 90) then char_of (code c + 32) else c.

Definition upper_char (c : ascii) : ascii :=
  if (97 <=? code c) && (code c <=? 122) then char_of (code c - 32) else c.

Definition toLowerCase : string -> string := map_string lower_char.
Definition toUpperCase : string -> string := map_string upper_char.

(** White space and line terminators, as [parseInt] and [parseFloat] skip
    them: TAB, LF, VT, FF, CR and SP in one byte; U+00A0 in two; U+1680,
    U+2000 to U+200A, U+2028, U+2029, U+202F, U+205F, U+3000 and U+FEFF in
    three. *)
Definition is_white (c : ascii) : bool :=
  ((9 <=? code c) && (code c <=? 13)) || (code c =? 32).

Definition is_white2 (a b : ascii) : bool :=
  (code a =? 194) && (code b =? 160).

Definition is_white3 (a b c : ascii) : bool :=
  ((code a =? 225) && (code b =? 154) && (code c =? 128))
  || ((code a =? 226) && (code b =? 128)
      && (((128 <=? code c) && (code c <=? 138))
          || (code c =? 168) || (code c =? 169) || (code c =? 175)))
  || ((code a =? 226) && (code b =? 129) && (code c =? 159))
  || ((code a =? 227) && (code b =? 128) && (code c =? 128))
  || ((code a =? 239) && (code b =? 187) && (code c =? 191)).

Definition digit_of (c : ascii) : option Z :=
  if (48 <=? code c) && (code c <=? 57) then Some (code c - 48) else None.

Fixpoint trim_start (s : string) : string :=
  match s with
  | String a rest =>
      if is_white a then trim_start rest
      else
        match rest with
        | String b rest2 =>
            if is_white2 a b then trim_start rest2
            else
              match rest2 with
              | String c rest3 => if is_white3 a b c then trim_start rest3 else s
              | EmptyString => s
              end
        | EmptyString => s
        end
  | EmptyString => s
  end.

(** Reads the longest prefix of decimal digits of [s], continuing the value
    [acc]: the value read, the number of digits and the rest of [s]. *)
Fixpoint take_digits (s : string) (acc : Z) (count : Z) : Z * Z * string :=
  match s with
  | String c rest =>
      match digit_of c with
      | Some d => take_digits rest (10 * acc + d) (count + 1)
      | None => (acc, count, s)
      end
  | EmptyString => (acc, count, s)
  end.

(** An optional sign: whether it is [-], and the rest. *)
Definition take_sign (s : string) : bool * string :=
  match s with
  | String "-" rest => (true, rest)
  | String "+" rest => (false, rest)
  | _ => (false, s)
  end.

Fixpoint starts_with (p s : string) : bool :=
  match p, s with
  | EmptyString, _ => true
  | String a p', String b s' => bool_decide (a = b) && starts_with p' s'
  | String _ _, EmptyString => false
  end.

(** [parseInt(s, 10)] on a string: leading white space, a sign, then the
    longest run of decimal digits; [NaN] when there is no digit. *)
Definition parseInt_string (s : string) : number :=
  let '(negative, s1) := take_sign (trim_start s) in
  let '(v, count, _) := take_digits s1 0 0 in
  if count =? 0 then NaN else F (signed negative v).

(** The exponent part of a decimal literal: [e] or [E], a sign, digits.
    Without a digit there is no exponent part. *)
Definition take_exponent (s : string) : Z :=
  match s with
  | String c rest =>
      if bool_decide (c = "e"%char) || bool_decide (c = "E"%char) then
        let '(negative, s1) := take_sign rest in
        let '(v, count, _) := take_digits s1 0 0 in
        if count =? 0 then 0 else signed negative v
      else 0
  | EmptyString => 0
  end.

(** [parseFloat(s)] on a string: leading white space, a sign, then
    [Infinity] or the longest prefix that is a decimal literal; [NaN] when
    there is none.  Exponents far outside the range of a double are
    resolved without building the power of ten. *)
Definition parseFloat_string (s : string) : number :=
  let '(negative, s1) := take_sign (trim_start s) in
  if starts_with "Infinity" s1 then Infinity negative
  else
    let '(ip, ni, r1) := take_digits s1 0 0 in
    let '(mant, nf, r2) :=
      match r1 with
      | String "." rest => take_digits rest ip 0
      | _ => (ip, 0, r1)
      end in
    if ni + nf =? 0 then NaN
    else
      let ex := take_exponent r2 - nf in
      if mant =? 0 then Finite 0 0
      else if 400 <? ex then Infinity negative
      else if ex + ni + nf <? -400 then Finite 0 0
      else if 0 <=? ex then to_double negative (mant * 10 ^ ex) 1
      else to_double negative mant (10 ^ (- ex)).

(** *** Number to string

    [Number::toString]: the shortest decimal digits [s] (with [k] digits)
    and exponent [n] such that [s * 10^(n-k)] reads back as the number,
    the closest to it when several do. *)

(** [n0] with [10^(n0-1) <= nm/d < 10^n0], for [0 < nm], [0 < d]. *)
Definition dec_exponent (nm d : Z) : Z :=
  if d <=? nm then Z.of_nat (String.length (pretty (nm / d)))
  else
    (fix go (fuel : nat) (j : Z) : Z :=
       match fuel with
       | O => 1 - j
       | S fuel' => if d <=? nm * 10 ^ j then 1 - j else go fuel' (j + 1)
       end) 400%nat 1.

Definition reads_back (x : number) (c p : Z) : bool :=
  if 0 <=? p then bool_decide (to_double false (c * 10 ^ p) 1 = x)
  else bool_decide (to_double false c (10 ^ (- p)) = x).

(** The [k]-digit candidates for [x = nm/d]: the multiples of [10^(n0-k)]
    just below and just above [x]. *)
Definition candidate (x : number) (nm d n0 k : Z) : option (Z * Z * Z) :=
  let p := n0 - k in
  let lo := if 0 <=? p then nm / (d * 10 ^ p) else (nm * 10 ^ (- p)) / d in
  let lo_closer :=
    if 0 <=? p then 2 * nm <=? (2 * lo + 1) * 10 ^ p * d
    else 2 * nm * 10 ^ (- p) <=? (2 * lo + 1) * d in
  let pick c := if c =? 10 ^ k then (1, 1, n0 + 1) else (c, k, n0) in
  match reads_back x lo p, reads_back x (lo + 1) p with
  | true, true => Some (pick (if lo_closer then lo else lo + 1))
  | true, false => Some (pick lo)
  | false, true => Some (pick (lo + 1))
  | false, false => None
  end.

(** The search for the least [k], from [k] on.  For a binary64 value 17
    digits always read back, so the search ends before [fuel] does. *)
Fixpoint shortest_from (fuel : nat) (x : number) (nm d n0 k : Z) : Z * Z * Z :=
  match fuel with
  | O => (nm / d, 1, n0)
  | S fuel' =>
      match candidate x nm d n0 k with
      | Some r => r
      | None => shortest_from fuel' x nm d n0 (k + 1)
      end
  end.

Fixpoint zeros (n : nat) : string :=
  match n with O => "" | S n' => String "0" (zeros n') end.

Fixpoint take_string (n : nat) (s : string) : string :=
  match n, s with
  | S n', String c rest => String c (take_string n' rest)
  | _, _ => ""
  end.

Fixpoint drop_string (n : nat) (s : string) : string :=
  match n, s with
  | S n', String _ rest => drop_string n' rest
  | _, _ => s
  end.

(** The text of the positive value with digits [s] ([k] of them) and
    exponent [n]. *)
Definition format_digits (s k n : Z) : string :=
  let ds : string := pretty s in
  if (k <=? n) && (n <=? 21) then ds +:+ zeros (Z.to_nat (n - k))
  else if (0 <? n) && (n <=? 21) then
    take_string (Z.to_nat n) ds +:+ "." +:+ drop_string (Z.to_nat n) ds
  else if (-6 <? n) && (n <=? 0) then "0." +:+ zeros (Z.to_nat (- n)) +:+ ds
  else
    let e := n - 1 in
    let es : string := (if e <? 0 then "-" else "+") +:+ pretty (Z.abs e) in
    if k =? 1 then ds +:+ "e" +:+ es
    else take_string 1 ds +:+ "." +:+ drop_string 1 ds +:+ "e" +:+ es.

Definition NumberToString (x : number) : string :=
  match canonical x with
  | NaN => "NaN"
  | Infinity false => "Infinity"
  | Infinity true => "-Infinity"
  | Finite m e =>
      if m =? 0 then "0"
      else
        let nm := if 0 <=? e then Z.abs m * 2 ^ e else Z.abs m in
        let d := if 0 <=? e then 1 else 2 ^ (- e) in
        let '(s, k, n) :=
          shortest_from 17 (Finite (Z.abs m) e) nm d (dec_exponent nm d) 1 in
        (if m <? 0 then "-" else "") +:+ format_digits s k n
  end.

(** *** Values

    What [JSON.parse] produces, and [undefined].  An object is its own
    properties. *)

Inductive JSValue : Type :=
| JUndefined
| JNull
| JBool (b : bool)
| JNum (x : number)
| JStr (s : string)
| JArr (items : list JSValue)
| JObj (fields : gmap string JSValue).

(** ToBoolean: what [!v], [v || w] and [if (v)] test. *)
Definition truthy (v : JSValue) : bool :=
  match v with
  | JUndefined | JNull => false
  | JBool b => b
  | JNum x => number_truthy x
  | JStr s => negb (bool_decide (s = ""))
  | JArr _ | JObj _ => true
  end.

(** [a || b] *)
Definition or_else (a b : JSValue) : JSValue := if truthy a then a else b.

(** [a ?? b] *)
Definition nullish (a b : JSValue) : JSValue :=
  match a with JUndefined | JNull => b | _ => a end.

Fixpoint join (sep : string) (l : list string) : string :=
  match l with
  | [] => ""
  | [s] => s
  | s :: rest => s +:+ sep +:+ join sep rest
  end.

(** ToString, as [parseInt] and [parseFloat] apply it to their argument;
    [None] is a [TypeError].  An array is the join of its elements.  An
    object of a parsed document is ["[object Object]"], through the
    [toString] it inherits; when it has a property of its own named
    [toString], which is not a function, and the [valueOf] it then falls
    back to does not give a primitive, the conversion throws. *)
Fixpoint ToString (v : JSValue) : option string :=
  match v with
  | JUndefined => Some "undefined"
  | JNull => Some "null"
  | JBool true => Some "true"
  | JBool false => Some "false"
  | JNum x => Some (NumberToString x)
  | JStr s => Some s
  | JArr items =>
      option_map (join ",")
        ((fix elements (l : list JSValue) : option (list string) :=
            match l with
            | [] => Some []
            | i :: rest =>
                match (match i with
                       | JUndefined | JNull => Some ""
                       | _ => ToString i
                       end) with
                | Some s => option_map (cons s) (elements rest)
                | None => None
                end
            end) items)
  | JObj fields =>
      match fields !! "toString" with
      | Some _ => None
      | None => Some "[object Object]"
      end
  end.

(** [parseInt(v, 10)] and [parseFloat(v)]; [None] is the [TypeError] of the
    conversion of [v] to a string. *)
Definition parseInt (v : JSValue) : option number :=
  option_map parseInt_string (ToString v).
Definition parseFloat (v : JSValue) : option number :=
  option_map parseFloat_string (ToString v).

(** [encodeURIComponent]: every byte is escaped as [%XX] except letters,
    digits and [- _ . ! ~ * ' ( )]. *)
Definition unreserved (c : ascii) : bool :=
  let n := code c in
  ((65 <=? n) && (n <=? 90)) || ((97 <=? n) && (n <=? 122))
  || ((48 <=? n) && (n <=? 57))
  || bool_decide (n ∈ [45; 95; 46; 33; 126; 42; 39; 40; 41]).

Definition hex_digit (z : Z) : ascii :=
  if z <? 10 then char_of (48 + z) else char_of (55 + z).

Fixpoint encodeURIComponent (s : string) : string :=
  match s with
  | EmptyString => EmptyString
  | String c rest =>
      if unreserved c then String c (encodeURIComponent rest)
      else String "%" (String (hex_digit (code c / 16))
                         (String (hex_digit (code c mod 16))
                            (encodeURIComponent rest)))
  end.

(** *** Property reads

    [obj[key]] on a value that is neither [undefined] nor [null]: the own
    property of an object, [undefined] when there is none.  Inherited
    members ([toString], [constructor], ...) and the index and [length]
    properties of arrays and strings are outside the model; none of them
    is a name the pipeline reads. *)
Definition get (obj : JSValue) (key : string) : JSValue :=
  match obj with
  | JObj fields => default JUndefined (fields !! key)
  | _ => JUndefined
  end.

(** [obj.key], which throws a [TypeError] on [undefined] and [null]. *)
Definition prop (obj : JSValue) (key : string) : option JSValue :=
  match obj with
  | JUndefined | JNull => None
  | _ => Some (get obj key)
  end.

Definition isArray (v : JSValue) : bool :=
  match v with JArr _ => true | _ => false end.

Definition array_items (v : JSValue) : list JSValue :=
  match v with JArr items => items | _ => [] end.

(** The receiver of [.forEach] and [.map]: anything but an array throws. *)
Definition as_array (v : JSValue) : option (list JSValue) :=
  match v with JArr items => Some items | _ => None end.

(** *** Map

    A [Map] is the list of its entries.  Keys are compared with
    SameValueZero; objects and arrays are compared by identity, and no two
    values of a parsed document share one. *)
Definition same_value_zero (a b : JSValue) : bool :=
  match a, b with
  | JUndefined, JUndefined => true
  | JNull, JNull => true
  | JBool x, JBool y => bool_decide (x = y)
  | JNum x, JNum y => bool_decide (canonical x = canonical y)
  | JStr x, JStr y => bool_decide (x = y)
  | _, _ => false
  end.

Definition JSMap : Type := list (JSValue * JSValue).

Fixpoint map_set (k v : JSValue) (m : JSMap) : JSMap :=
  match m with
  | [] => [(k, v)]
  | (k', v') :: rest =>
      if same_value_zero k' k then (k', v) :: rest
      else (k', v') :: map_set k v rest
  end.

Fixpoint map_get (k : JSValue) (m : JSMap) : JSValue :=
  match m with
  | [] => JUndefined
  | (k', v') :: rest => if same_value_zero k' k then v' else map_get k rest
  end.

End JS.

Import JS.

(** ** The coordinate service *)

Section CoordinateService.

(** [proj4]'s transformation from EPSG:3826 to WGS84, applied to [[x, y]]:
    the pair [[lon, lat]], or [None] when it throws. *)
Variable p4 : number -> number -> option (number * number).

Definition convertTWD97ToWGS84 (x y : number) : number * number :=
  if negb (number_truthy x) || negb (number_truthy y) then (num 0, num 0)
  else
    match p4 x y with
    | Some (lon, lat) => (lat, lon)
    | None => (num 0, num 0)
    end.

End CoordinateService.

(** ** The network

    A request is answered by the network according to its URL and to how
    many requests were made to that URL before.  The promises that
    [Promise.all] awaits together request different URLs, so their
    requests are independent and the model runs them one after the
    other.  The clock is a function of what has happened so far, the
    requests and the pauses: [Date.now()] reads [now], which every request
    and every pause may move. *)

Inductive Body : Type :=
| BodyFails            (* reading the body rejects *)
| NotJson              (* the body is text that is not JSON *)
| Json (v : JSValue).

Inductive FetchOutcome : Type :=
| NetworkError         (* [fetch] rejects: connection error, timeout *)
| Response (ok : bool) (body : Body).

Inductive Event : Type :=
| EvFetch (url : string) (timeout : option Z)
| EvSleep (ms : Z).

#[global] Instance Event_eq_dec : EqDecision Event.
Proof. solve_decision. Defined.

Record World : Type := mkWorld {
  net : string -> nat -> FetchOutcome;
  clock : list Event -> Z;
  log : list Event;
}.

(** The time it is in the world [w]. *)
Definition now (w : World) : Z := clock w (log w).

Definition logged (w : World) (evs : list Event) : World :=
  {| net := net w; clock := clock w; log := log w ++ evs |}.

Definition is_fetch_of (url : string) (ev : Event) : bool :=
  match ev with
  | EvFetch u _ => bool_decide (u = url)
  | EvSleep _ => false
  end.

Definition requests_to (url : string) (evs : list Event) : nat :=
  length (List.filter (is_fetch_of url) evs).

Definition M (A : Type) : Type := World -> A * World.

Definition ret {A} (a : A) : M A := fun w => (a, w).

Definition bind {A B} (c : M A) (k : A -> M B) : M B :=
  fun w => let '(a, w') := c w in k a w'.

Notation "x <- c ;; k" := (bind c (fun x => k))
  (at level 100, c at next level, right associativity).

Notation "c ;;; k" := (bind c (fun _ => k))
  (at level 100, right associativity).

Definition fetch (url : string) (timeout : option Z) : M FetchOutcome :=
  fun w => (net w url (requests_to url (log w)), logged w [EvFetch url timeout]).

Definition sleep (ms : Z) : M unit := fun w => (tt, logged w [EvSleep ms]).

Definition Date_now : M Z := fun w => (now w, w).

Inductive Error : Type := mkError (message : string).

Inductive Result (A : Type) : Type :=
| Ok (a : A)
| Throw (e : Error).
Arguments Ok {A} a.
Arguments Throw {A} e.

(** ** api.ts *)

Definition TPC_DESC_URL : string :=
  "https://tcgbusfs.blob.core.windows.net/blobtcmsv/TCMSV_alldesc.json".
Definition TPC_AVAIL_URL : string :=
  "https://tcgbusfs.blob.core.windows.net/blobtcmsv/TCMSV_allavailable.json".
Definition NTPC_DESC_BASE_URL : string :=
  "https://data.ntpc.gov.tw/api/datasets/b1464ef0-9c7c-4a6f-abf7-6bdf32847e68/json".
Definition NTPC_AVAIL_BASE_URL : string :=
  "https://data.ntpc.gov.tw/api/datasets/e09b35a5-a738-48cc-b0f5-570b67ad9c78/json".

Definition PROXIES : list (string -> string) :=
  [ (fun url => "https://corsproxy.io/?" +:+ encodeURIComponent url);
    (fun url => "https://api.allorigins.win/raw?url=" +:+ encodeURIComponent url) ].

(** *** fetchWithRetry *)

(** The loop [for (let i = i0; i <= retries; i++)] over one proxy, with
    [remaining] iterations to go.  [Some v]: the function returns [v];
    [None]: the loop is left, by [break] or at its end. *)
Fixpoint proxyAttempts (proxyUrl : string) (retries : nat) (remaining i : nat)
  : M (option JSValue) :=
  match remaining with
  | O => ret None
  | S remaining' =>
      res <- fetch proxyUrl (Some 8000) ;;
      match res with
      | Response true (Json v) => ret (Some v)
      | Response true NotJson => ret None
      | Response false _ => proxyAttempts proxyUrl retries remaining' (S i)
      | Response true BodyFails | NetworkError =>
          if bool_decide (i = retries)
          then proxyAttempts proxyUrl retries remaining' (S i)
          else sleep (500 * (Z.of_nat i + 1)) ;;;
               proxyAttempts proxyUrl retries remaining' (S i)
      end
  end.

Definition tryProxy (proxyUrl : string) (retries : nat) : M (option JSValue) :=
  proxyAttempts proxyUrl retries (S retries) 0.

(** The loop [for (const proxyFn of PROXIES)], then the final [throw]. *)
Fixpoint tryProxies (proxies : list (string -> string)) (url : string)
    (retries : nat) : M (Result JSValue) :=
  match proxies with
  | [] =>
      ret (Throw (mkError ("Unable to fetch data from " +:+ url
                           +:+ " even with proxies.")))
  | proxyFn :: rest =>
      r <- tryProxy (proxyFn url) retries ;;
      match r with
      | Some v => ret (Ok v)
      | None => tryProxies rest url retries
      end
  end.

Definition fetchWithRetry (url : string) (retries : nat) : M (Result JSValue) :=
  res <- fetch url (Some 5000) ;;
  match res with
  | Response true (Json v) => ret (Ok v)
  | _ => tryProxies PROXIES url retries
  end.

(** *** fetchAllNTPCData *)

Definition pageUrl (baseUrl : string) (page : nat) (ts : Z) : string :=
  baseUrl +:+ "?page=" +:+ pretty page +:+ "&size=" +:+ pretty 1000
          +:+ "&_t=" +:+ pretty ts.

(** [!data || !Array.isArray(data) || data.length === 0] *)
Definition lastPage (data : JSValue) : bool :=
  negb (truthy data) || negb (isArray data)
  || (length (array_items data) =? 0)%nat.

(** The [while (true)] loop, entered with [page] and [allData]. *)
Equations? fetchPages (baseUrl : string) (ts : Z) (page : nat)
    (allData : list JSValue) (w : World) : list JSValue * World
    by wf (16 - page)%nat lt :=
  fetchPages baseUrl ts page allData w
    with fetchWithRetry (pageUrl baseUrl page ts) 2 w => {
    | (Throw _, w') := (allData, w');
    | (Ok data, w') with lastPage data => {
      | true := (allData, w');
      | false with decide (15 < S page)%nat => {
        | left _ := (allData ++ array_items data, w');
        | right _ :=
            fetchPages baseUrl ts (S page) (allData ++ array_items data) w' } } }.
Proof. lia. Qed.

Definition fetchAllNTPCData (baseUrl : string) : M (list JSValue) :=
  ts <- Date_now ;;
  fetchPages baseUrl ts 0 [].

(** *** getProp *)

Definition getProp (obj : JSValue) (key : string) : JSValue :=
  if negb (truthy obj) then JUndefined
  else or_else (or_else (get obj key) (get obj (toLowerCase key)))
               (get obj (toUpperCase key)).

(** *** The canonical record *)

Inductive Source : Type := TPC | NTPC.

(** [ParkingLotData].  [spread] is the description whose other properties
    the spread [...desc] copies into the record (Taipei only). *)
Record ParkingLotData : Type := mkParkingLotData {
  spread : option JSValue;
  id : JSValue;
  name : JSValue;
  address : JSValue;
  payex : JSValue;
  totalcar : JSValue;
  availablecar : JSValue;
  lat : number;
  lng : number;
  lastUpdated : Z;
  source : Source;
}.

Section Normalizers.

Variable p4 : number -> number -> option (number * number).

(** *** fetchTaipeiData

    The body of the [try] block after the two responses are parsed.
    [None] is a [TypeError], which the [catch] turns into [[]]. *)

(** [parksAvail.forEach(p => availMap.set(p.id, p.availablecar))] *)
Fixpoint taipeiAvailMap (parksAvail : list JSValue) (availMap : JSMap)
  : option JSMap :=
  match parksAvail with
  | [] => Some availMap
  | p :: rest =>
      i ← prop p "id";
      a ← prop p "availablecar";
      taipeiAvailMap rest (map_set i a availMap)
  end.

(** The callback of [parksDesc.map].  [t] is what [Date.now()] reads in
    it: the callbacks of one [map] run one after the other with no request
    and no pause between them, and the clock moves with those only. *)
Definition taipeiRecord (t : Z) (availMap : JSMap) (desc : JSValue)
  : option ParkingLotData :=
  tw97x ← prop desc "tw97x";
  x ← parseFloat tw97x;
  tw97y ← prop desc "tw97y";
  y ← parseFloat tw97y;
  let '(lat, lng) := convertTWD97ToWGS84 p4 x y in
  Some {| spread := Some desc;
          id := get desc "id";
          name := get desc "name";
          address := get desc "address";
          payex := get desc "payex";
          totalcar := get desc "totalcar";
          availablecar := nullish (map_get (get desc "id") availMap) (JNum (num (-9)));
          lat := lat;
          lng := lng;
          lastUpdated := t;
          source := TPC |}.

(** [p => p.lat !== 0 && p.lng !== 0] *)
Definition taipeiKeep (p : ParkingLotData) : bool :=
  negb (is_zero (lat p)) && negb (is_zero (lng p)).

Definition normalizeTaipei (t : Z) (descJson availJson : JSValue)
  : option (list ParkingLotData) :=
  descData ← prop descJson "data";
  parksDesc ← prop descData "park";
  availData ← prop availJson "data";
  parksAvail ← prop availData "park";
  avails ← as_array parksAvail;
  availMap ← taipeiAvailMap avails [];
  descs ← as_array parksDesc;
  records ← mapM (taipeiRecord t availMap) descs;
  Some (List.filter taipeiKeep records).

(** Both requests are issued before [Promise.all] is awaited; any
    rejection, a response that is not [ok], a body that is not JSON and a
    [TypeError] all end in the [catch]. *)
Definition fetchTaipeiData : M (list ParkingLotData) :=
  descRes <- fetch TPC_DESC_URL None ;;
  availRes <- fetch TPC_AVAIL_URL None ;;
  t <- Date_now ;;
  ret match descRes, availRes with
      | Response descOk descBody, Response availOk availBody =>
          if negb descOk || negb availOk then []
          else
            match descBody, availBody with
            | Json descJson, Json availJson =>
                default [] (normalizeTaipei t descJson availJson)
            | _, _ => []
            end
      | _, _ => []
      end.

(** *** fetchNewTaipeiData

    The body of the [try] block after the two datasets are fetched.
    [None] is a [TypeError], which the [catch] turns into [[]]. *)

(** The callback of [availArray.forEach]. *)
Definition ntpcAvailStep (availMap : JSMap) (p : JSValue) : option JSMap :=
  let i := getProp p "ID" in
  let avail := getProp p "AVAILABLECAR" in
  count ← parseInt avail;
  Some (if truthy i
        then map_set i (JNum (if isNaN count then num (-9) else count)) availMap
        else availMap).

Fixpoint ntpcAvailLoop (availArray : list JSValue) (availMap : JSMap)
  : option JSMap :=
  match availArray with
  | [] => Some availMap
  | p :: rest =>
      availMap1 ← ntpcAvailStep availMap p;
      ntpcAvailLoop rest availMap1
  end.

Definition ntpcAvailMap (availArray : list JSValue) : option JSMap :=
  ntpcAvailLoop availArray [].

(** The callback of [descArray.map]; [t] is what [Date.now()] reads in it. *)
Definition ntpcRecord (t : Z) (availMap : JSMap) (desc : JSValue)
  : option ParkingLotData :=
  let xStr := getProp desc "TW97X" in
  let yStr := getProp desc "TW97Y" in
  x ← parseFloat xStr;
  y ← parseFloat yStr;
  let '(lat, lng) := convertTWD97ToWGS84 p4 x y in
  let i := getProp desc "ID" in
  let totalStr := getProp desc "TOTALCAR" in
  total ← parseInt totalStr;
  Some {| spread := None;
          id := i;
          name := getProp desc "NAME";
          address := getProp desc "ADDRESS";
          payex := getProp desc "PAYEX";
          totalcar := or_else (JNum total) (JNum (num 0));
          availablecar := nullish (map_get i availMap) (JNum (num (-9)));
          lat := lat;
          lng := lng;
          lastUpdated := t;
          source := NTPC |}.

(** [p => p.lat !== 0 && p.lng !== 0 && p.id] *)
Definition ntpcKeep (p : ParkingLotData) : bool :=
  negb (is_zero (lat p)) && negb (is_zero (lng p)) && truthy (id p).

Definition normalizeNewTaipei (t : Z) (descArray availArray : list JSValue)
  : option (list ParkingLotData) :=
  availMap ← ntpcAvailMap availArray;
  records ← mapM (ntpcRecord t availMap) descArray;
  Some (List.filter ntpcKeep records).

(** [Promise.all] is handed the promises of the two calls of
    [fetchAllNTPCData], each of which has run up to its first [await]: both
    have read the clock, for the [_t] of their pages, before any page is
    awaited.  [fetchAllNTPCData] catches the failures of its fetches and
    never throws; a [TypeError] of the normalization ends in the [catch]. *)
Definition fetchNewTaipeiData : M (list ParkingLotData) :=
  tsDesc <- Date_now ;;
  tsAvail <- Date_now ;;
  descArray <- fetchPages NTPC_DESC_BASE_URL tsDesc 0 [] ;;
  availArray <- fetchPages NTPC_AVAIL_BASE_URL tsAvail 0 [] ;;
  t <- Date_now ;;
  ret (default [] (normalizeNewTaipei t descArray availArray)).

(** *** fetchParkingData *)

Definition NoDataAvailable : Error :=
  mkError "無法取得任何停車場資料，請檢查網路連線或 API 狀態。".

Definition fetchParkingData : M (Result (list ParkingLotData)) :=
  tpcData <- fetchTaipeiData ;;
  ntpcData <- fetchNewTaipeiData ;;
  let combined := tpcData ++ ntpcData in
  if (length combined =? 0)%nat then ret (Throw NoDataAvailable)
  else ret (Ok combined).

End Normalizers.

(** ** What the specification asks of a record *)

(** [availableCount]: a non-negative integer or one of the four sentinels. *)
Definition spec_availableCount (v : JSValue) : Prop :=
  exists z : Z, v = JNum (num z) /\ (0 <= z \/ z ∈ [-9; -11; -12; -13]).

(** [totalCapacity]: a non-negative integer. *)
Definition spec_totalCapacity (v : JSValue) : Prop :=
  exists z : Z, v = JNum (num z) /\ 0 <= z.

(** ** Sample data *)

(** A stand-in for [proj4] in the examples: every point is sent to
    121.5 E, 25 N.  Only that the result is not zero matters there. *)
Definition p4_taipei : number -> number -> option (number * number) :=
  fun _ _ => Some (Finite 243 (-1), num 25).

(** A New Taipei description and its availability, both with counts of -5. *)
Definition ntpc_desc_A1 : JSValue :=
  JObj {[ "ID" := JStr "A1"; "NAME" := JStr "Lot A1";
          "TW97X" := JStr "300000"; "TW97Y" := JStr "2770000";
          "TOTALCAR" := JStr "-5" ]}.

Definition ntpc_avail_A1 : JSValue :=
  JObj {[ "ID" := JStr "A1"; "AVAILABLECAR" := JStr "-5" ]}.

(** A description whose first coordinate is not a numeral. *)
Definition ntpc_desc_bad_x : JSValue :=
  JObj {[ "ID" := JStr "B2"; "TW97X" := JStr "n/a"; "TW97Y" := JStr "2770000" ]}.

(** The Taipei scenario of the specification: one description and its
    availability. *)
Definition tpc_desc_P1 : JSValue :=
  JObj {[ "id" := JStr "P1"; "tw97x" := JStr "300000"; "tw97y" := JStr "2770000";
          "totalcar" := JNum (num 100) ]}.

Definition tpc_avail_P1 : JSValue :=
  JObj {[ "id" := JStr "P1"; "availablecar" := JNum (num 42) ]}.

Definition tpc_document (parks : list JSValue) : JSValue :=
  JObj {[ "data" := JObj {[ "park" := JArr parks ]} ]}.

(** [json.data.park], when it is an array. *)
Definition parkList (json : JSValue) : option (list JSValue) :=
  data ← prop json "data";
  park ← prop data "park";
  as_array park.

(** The values [availMap] can hold for New Taipei: a number that is not
    [NaN], either -9 or what [parseInt] made of an upstream value. *)
Definition ntpcCount (availArray : list JSValue) (v : JSValue) : Prop :=
  exists n, v = JNum n /\ isNaN n = false
    /\ (n = num (-9)
        \/ exists p, In p availArray
                     /\ parseInt (getProp p "AVAILABLECAR") = Some n).

(** The values [availMap] can hold for Taipei: upstream values, as they came. *)
Definition taipeiCount (avails : list JSValue) (v : JSValue) : Prop :=
  exists p, In p avails /\ v = get p "availablecar".

(** A network on which both Taipei documents and one page of each New
    Taipei dataset are served directly, and every other request fails. *)
Definition sample_net (url : string) (k : nat) : FetchOutcome :=
  if bool_decide (url = TPC_DESC_URL)
  then Response true (Json (tpc_document [tpc_desc_P1]))
  else if bool_decide (url = TPC_AVAIL_URL)
  then Response true (Json (tpc_document [tpc_avail_P1]))
  else if bool_decide (url = pageUrl NTPC_DESC_BASE_URL 0 1700000000000)
  then Response true (Json (JArr [ntpc_desc_A1; ntpc_desc_bad_x]))
  else if bool_decide (url = pageUrl NTPC_DESC_BASE_URL 1 1700000000000)
  then Response true (Json (JArr []))
  else if bool_decide (url = pageUrl NTPC_AVAIL_BASE_URL 0 1700000000000)
  then Response true (Json (JArr [ntpc_avail_A1]))
  else if bool_decide (url = pageUrl NTPC_AVAIL_BASE_URL 1 1700000000000)
  then Response true (Json (JArr []))
  else NetworkError.

Definition sample_world : World :=
  {| net := sample_net; clock := fun _ => 1700000000000; log := [] |}.

(** The records the pipeline emits on [sample_world]. *)
Definition sample_P1 : ParkingLotData :=
  {| spread := Some tpc_desc_P1;
     id := JStr "P1"; name := JUndefined; address := JUndefined;
     payex := JUndefined; totalcar := JNum (num 100);
     availablecar := JNum (num 42);
     lat := num 25; lng := Finite 243 (-1);
     lastUpdated := 1700000000000; source := TPC |}.

Definition sample_A1 : ParkingLotData :=
  {| spread := None;
     id := JStr "A1"; name := JStr "Lot A1"; address := JUndefined;
     payex := JUndefined; totalcar := JNum (num (-5));
     availablecar := JNum (num (-5));
     lat := num 25; lng := Finite 243 (-1);
     lastUpdated := 1700000000000; source := NTPC |}.

(** The requests and pauses of [tryProxy] on a relay that never answers:
    iteration [i] of the loop, with [remaining] iterations to go. *)
Fixpoint backoffTrace (proxyUrl : string) (retries i remaining : nat) : list Event :=
  match remaining with
  | O => []
  | S remaining' =>
      EvFetch proxyUrl (Some 8000)
        :: (if bool_decide (i = retries) then []
            else [EvSleep (500 * (Z.of_nat i + 1))])
        ++ backoffTrace proxyUrl retries (S i) remaining'
  end.






(** A relay that fails once and then serves a page of HTML; a relay whose
    bodies cannot be read. *)
Definition error_then_html_world : World :=
  {| net := fun _ k => match k with
                       | O => NetworkError
                       | S _ => Response true NotJson
                       end;
     clock := fun _ => 1700000000000; log := [] |}.

Definition unreadable_world : World :=
  {| net := fun _ _ => Response true BodyFails;
     clock := fun _ => 1700000000000; log := [] |}.

(** The direct attempts among some events: they alone carry the 5 s
    timeout, and [fetchWithRetry] makes exactly one per call. *)
Definition directRequests (evs : list Event) : list Event :=
  List.filter (fun ev => match ev with
                         | EvFetch _ timeout => bool_decide (timeout = Some 5000)
                         | EvSleep _ => false
                         end) evs.

(** [collected baseUrl ts page w pages w']: from the world [w], the pages
    [page], [page + 1], ... are fetched one after the other, each a
    non-empty array, giving [pages] and leaving the world [w']. *)
Inductive collected (baseUrl : string) (ts : Z)
  : nat -> World -> list (list JSValue) -> World -> Prop :=
| collected_none page w : collected baseUrl ts page w [] w
| collected_page page w data w' pages w'' :
    fetchWithRetry (pageUrl baseUrl page ts) 2 w = (Ok data, w') ->
    lastPage data = false ->
    collected baseUrl ts (S page) w' pages w'' ->
    collected baseUrl ts page w (array_items data :: pages) w''.


(** What the specification says of Taipei when its direct request fails:
    the relays are tried. *)
Definition spec_taipei_tries_relays : Prop :=
  forall p4 w,
    net w TPC_DESC_URL (requests_to TPC_DESC_URL (log w)) = NetworkError ->
    exists proxyFn, In proxyFn PROXIES
      /\ (0 < requests_to (proxyFn TPC_DESC_URL) (log (fetchTaipeiData p4 w).2))%nat.

(** Worlds for the examples: nothing answers; every answer is a 503 with
    an empty body; every answer is a 200 whose body is a page of HTML. *)
Definition dead_world : World :=
  {| net := fun _ _ => NetworkError; clock := fun _ => 1700000000000; log := [] |}.

Definition unavailable_world : World :=
  {| net := fun _ _ => Response false NotJson; clock := fun _ => 1700000000000; log := [] |}.

Definition html_world : World :=
  {| net := fun _ _ => Response true NotJson; clock := fun _ => 1700000000000; log := [] |}.

(** Only the two Taipei documents are served. *)
Definition taipei_only_world : World :=
  {| net := fun url _ =>
       if bool_decide (url = TPC_DESC_URL)
       then Response true (Json (tpc_document [tpc_desc_P1]))
       else if bool_decide (url = TPC_AVAIL_URL)
       then Response true (Json (tpc_document [tpc_avail_P1]))
       else NetworkError;
     clock := fun _ => 1700000000000; log := [] |}.

(** Pages 0 to 3 of a dataset are served, one record each; page 4 and
    everything else fails. *)
Definition four_pages_net (baseUrl : string) (url : string) (k : nat) : FetchOutcome :=
  match List.find (fun page => bool_decide (url = pageUrl baseUrl page 1700000000000))
                  (seq 0 4) with
  | Some page => Response true (Json (JArr [JNum (num (Z.of_nat page))]))
  | None => NetworkError
  end.

Definition four_pages_world : World :=
  {| net := four_pages_net NTPC_DESC_BASE_URL; clock := fun _ => 1700000000000; log := [] |}.

(** A dataset that never ends: every request is answered with a page of
    one record. *)
Definition endless_world : World :=
  {| net := fun _ _ => Response true (Json (JArr [JNull]));
     clock := fun _ => 1700000000000; log := [] |}.

(** ** The presentation layer: ParkingMap.tsx and App.tsx *)

(** [x === z], [x < 0] and [x > 0] on numbers, for an integer literal [z]. *)
Definition strict_eq (x : number) (z : Z) : bool :=
  bool_decide (canonical x = num z).

Definition lt0 (x : number) : bool :=
  match x with
  | NaN => false
  | Infinity negative => negative
  | Finite m _ => m <? 0
  end.

Definition gt0 (x : number) : bool :=
  match x with
  | NaN => false
  | Infinity negative => negb negative
  | Finite m _ => 0 <? m
  end.

Definition getAvailabilityText (available : number) : string :=
  if strict_eq available (-9) then "無法提供"
  else if strict_eq available (-11) then "剩餘格位足夠"
  else if strict_eq available (-12) then "剩餘格位不足半數"
  else if strict_eq available (-13) then "剩餘格數不足"
  else if lt0 available then "資訊不明"
  else NumberToString available +:+ " 格".

Definition getAvailabilityClass (available : number) : string :=
  if strict_eq available (-9) then "text-gray-500 font-bold"
  else if strict_eq available (-11) then "text-green-600 font-bold"
  else if strict_eq available (-12) then "text-yellow-600 font-bold"
  else if strict_eq available (-13) then "text-red-600 font-bold"
  else if gt0 available then "text-blue-600 font-bold"
  else "text-gray-600 font-bold".

(** The five fixed texts of [getAvailabilityText]. *)
Definition availabilityLabels : list string :=
  ["無法提供"; "剩餘格位足夠"; "剩餘格位不足半數"; "剩餘格數不足"; "資訊不明"].

Module App.

(** The state of the [App] component. *)
Record State : Type := mkState {
  parkingData : list ParkingLotData;
  loading : bool;
  error : option string;
  lastUpdated : option Z;
  userLocation : option (number * number);
  locating : bool;
}.

Definition setParkingData (data : list ParkingLotData) (s : State) : State :=
  {| parkingData := data; loading := loading s; error := error s;
     lastUpdated := lastUpdated s; userLocation := userLocation s;
     locating := locating s |}.

Definition setLoading (b : bool) (s : State) : State :=
  {| parkingData := parkingData s; loading := b; error := error s;
     lastUpdated := lastUpdated s; userLocation := userLocation s;
     locating := locating s |}.

Definition setError (e : option string) (s : State) : State :=
  {| parkingData := parkingData s; loading := loading s; error := e;
     lastUpdated := lastUpdated s; userLocation := userLocation s;
     locating := locating s |}.

Definition setLastUpdated (t : option Z) (s : State) : State :=
  {| parkingData := parkingData s; loading := loading s; error := error s;
     lastUpdated := t; userLocation := userLocation s;
     locating := locating s |}.

Definition loadError : string := "無法讀取停車場資料，請稍後再試。".

(** [loadData]: the state once the promise it returns has settled. *)
Definition loadData (p4 : number -> number -> option (number * number))
    (s : State) : M State :=
  let s1 := setLoading true s in
  r <- fetchParkingData p4 ;;
  t <- Date_now ;;
  let s2 :=
    match r with
    | Ok data => setError None (setLastUpdated (Some t) (setParkingData data s1))
    | Throw _ => setError (Some loadError) s1
    end in
  ret (setLoading false s2).

(** The state the component starts in. *)
Definition initial : State :=
  {| parkingData := []; loading := true; error := None; lastUpdated := None;
     userLocation := None; locating := false |}.

End App.

(** ** Matching availability to a description *)

(** The availability entry [p] of New Taipei carries the identifier [k]. *)
Definition ntpcMatches (p k : JSValue) : bool :=
  truthy (getProp p "ID") && same_value_zero (getProp p "ID") k.

(** What [availMap] stores for the entry [p] of New Taipei. *)
Definition ntpcStored (p : JSValue) : option JSValue :=
  count ← parseInt (getProp p "AVAILABLECAR");
  Some (JNum (if isNaN count then num (-9) else count)).

(** The new events of a call: their requests and the total of their pauses. *)
Definition fetchCount (evs : list Event) : nat :=
  length (List.filter (fun ev => match ev with EvFetch _ _ => true | _ => false end) evs).

Fixpoint pauseTotal (evs : list Event) : Z :=
  match evs with
  | [] => 0
  | EvSleep ms :: rest => ms + pauseTotal rest
  | EvFetch _ _ :: rest => pauseTotal rest
  end.

(** The URLs [fetchWithRetry] may ask for [url]: itself and its relays. *)
Definition strategies (url : string) : list string :=
  url :: List.map (fun proxyFn : string -> string => proxyFn url) PROXIES.

(** Worlds for the examples.  The first relay fails once and then serves
    a page; the description pages are served and availability is not; the
    Taipei description list holds a [null]. *)
Definition flaky_relay_world : World :=
  {| net := fun url k =>
       if bool_decide (url = "https://relay.example/")
       then match k with
            | O => NetworkError
            | S _ => Response true (Json (JArr [JNum (num 7)]))
            end
       else NetworkError;
     clock := fun _ => 1700000000000; log := [] |}.

Definition no_availability_world : World :=
  {| net := fun url _ =>
       if bool_decide (url = pageUrl NTPC_DESC_BASE_URL 0 1700000000000)
       then Response true (Json (JArr [ntpc_desc_A1]))
       else if bool_decide (url = pageUrl NTPC_DESC_BASE_URL 1 1700000000000)
       then Response true (Json (JArr []))
       else NetworkError;
     clock := fun _ => 1700000000000; log := [] |}.

(** The descriptions of New Taipei are served, and so is its availability,
    in which the count of one lot, another one, is an object with a
    property named [toString]. *)
Definition poisoned_availability_world : World :=
  {| net := fun url _ =>
       if bool_decide (url = pageUrl NTPC_DESC_BASE_URL 0 1700000000000)
       then Response true (Json (JArr [ntpc_desc_A1]))
       else if bool_decide (url = pageUrl NTPC_AVAIL_BASE_URL 0 1700000000000)
       then Response true
              (Json (JArr [JObj {[ "ID" := JStr "Z9";
                                   "AVAILABLECAR" :=
                                     JObj {[ "toString" := JNum (num 1) ]} ]}]))
       else if bool_decide (url = pageUrl NTPC_DESC_BASE_URL 1 1700000000000)
               || bool_decide (url = pageUrl NTPC_AVAIL_BASE_URL 1 1700000000000)
       then Response true (Json (JArr []))
       else NetworkError;
     clock := fun _ => 1700000000000; log := [] |}.

(** A clock that moves: a request takes 100 ms and a pause its length.
    Only the two Taipei documents are served. *)
Definition ticking_clock (evs : list Event) : Z :=
  1700000000000 + 100 * Z.of_nat (fetchCount evs) + pauseTotal evs.

Definition ticking_world : World :=
  {| net := net taipei_only_world; clock := ticking_clock; log := [] |}.

Definition sample_state : App.State :=
  {| App.parkingData := [sample_P1]; App.loading := false; App.error := None;
     App.lastUpdated := Some 1600000000000;
     App.userLocation := Some (num 25, Finite 243 (-1));
     App.locating := false |}.

(** * Properties *)

(** ** The runtime *)

Example F_small : F (-5) = num (-5).
Proof. reflexivity. Qed.

Example F_rounds : F (2 ^ 53 + 1) = num (2 ^ 53).
Proof. vm_compute. reflexivity. Qed.

Example F_rounds_up : F (2 ^ 53 + 3) = num (2 ^ 53 + 4).
Proof. vm_compute. reflexivity. Qed.

Example F_agrees_with_to_double :
  forallb (fun z => bool_decide (F z = to_double (z <? 0) (Z.abs z) 1))
    [0; 1; -7; 2 ^ 53 + 1; 2 ^ 53 + 3; - (2 ^ 70) - 12345; 10 ^ 308; 10 ^ 309;
     2 ^ 1024 - 2 ^ 970 - 1; 2 ^ 1024 - 2 ^ 970] = true.
Proof. vm_compute. reflexivity. Qed.

Example to_double_tenth : to_double false 1 10 = Finite 3602879701896397 (-55).
Proof. vm_compute. reflexivity. Qed.

Example to_double_underflow : to_double false 1 (10 ^ 400) = Finite 0 0.
Proof. vm_compute. reflexivity. Qed.

Example to_double_min_subnormal : to_double false 5 (10 ^ 324) = Finite 1 (-1074).
Proof. vm_compute. reflexivity. Qed.

Example string_of_numbers :
  List.map NumberToString
    [num 0; num 42; num (-5); Finite 5 (-1); to_double false 1 10;
     num (10 ^ 20); F (10 ^ 21); F (10 ^ 23); to_double false 5 (10 ^ 7);
     to_double false 1 (10 ^ 6); to_double true 123456 1000; F (2 ^ 66);
     Finite 1 (-1074); to_double false 435 100]
  = ["0"; "42"; "-5"; "2.5"; "0.1"; "100000000000000000000"; "1e+21"; "1e+23";
     "5e-7"; "0.000001"; "-123.456"; "73786976294838210000"; "5e-324"; "4.35"]%string.
Proof. vm_compute. reflexivity. Qed.

Example parseInt_examples :
  List.map parseInt
    [JStr "42"; JStr "  -5xyz"; JStr "abc"; JStr ""; JStr "12.9"; JUndefined;
     JNull; JNum (Finite 9 (-1)); JNum (F (10 ^ 21)); JArr [JStr "7"; JStr "8"];
     JStr "0x10"; JStr "+3"]
  = List.map Some
      [num 42; num (-5); NaN; NaN; num 12; NaN; NaN; num 4; num 1; num 7; num 0;
       num 3].
Proof. vm_compute. reflexivity. Qed.

(** U+3000, U+00A0 and U+FEFF before the digits are skipped, in their
    UTF-8 bytes. *)
Example parseInt_unicode_space :
  parseInt (JStr (String (char_of 227) (String (char_of 128) (String (char_of 128)
             (String (char_of 194) (String (char_of 160)
             (String (char_of 239) (String (char_of 187) (String (char_of 191)
             "17")))))))))
  = Some (num 17).
Proof. vm_compute. reflexivity. Qed.

(** An object of a parsed document converts to a string unless it has a
    property named [toString]; an array converts element by element. *)
Example parseInt_of_objects :
  List.map parseInt
    [JObj ∅; JObj {[ "toString" := JNum (num 1) ]};
     JObj {[ "valueOf" := JNum (num 1) ]};
     JArr [JNum (num 3); JObj {[ "toString" := JNull ]}];
     JArr [JNull; JStr "8"]]
  = [Some NaN; None; Some NaN; None; Some NaN].
Proof. vm_compute. reflexivity. Qed.

Example parseFloat_examples :
  List.map parseFloat
    [JStr "300000"; JStr "2770000.5"; JStr "abc"; JStr ""; JStr "."; JStr ".5";
     JStr "1e3"; JStr "1e"; JStr "-Infinity"; JUndefined; JStr "1e-400";
     JStr "1e400"; JNum (Finite 5 (-1)); JStr " 12px"]
  = List.map Some
      [num 300000; Finite 5540001 (-1); NaN; NaN; NaN; Finite 1 (-1);
       num 1000; num 1; Infinity true; NaN; num 0; Infinity false;
       Finite 5 (-1); num 12].
Proof. vm_compute. reflexivity. Qed.

(** ** Numbers *)

Lemma F_integer_or_infinite (z : Z) :
  is_integer (F z) = true \/ exists s, F z = Infinity s.
Proof.
  unfold F.
  destruct (Z.abs z <? 2 ^ 53); [left; reflexivity |].
  destruct (2 ^ 1024 <=? _); [right; eauto | left; reflexivity].
Qed.

Lemma F_not_NaN (z : Z) : isNaN (F z) = false.
Proof.
  unfold F.
  destruct (Z.abs z <? 2 ^ 53); [reflexivity |].
  destruct (2 ^ 1024 <=? _); reflexivity.
Qed.

Lemma parseInt_string_range (s : string) :
  parseInt_string s = NaN \/ exists z, parseInt_string s = F z.
Proof.
  unfold parseInt_string.
  destruct (take_sign (trim_start s)) as [negative s1].
  destruct (take_digits s1 0 0) as [[v count] rest].
  destruct (count =? 0); [left; reflexivity | right; eauto].
Qed.

(** [parseInt] yields [NaN], an integer, or an infinity (on overflow). *)
Lemma parseInt_range (v : JSValue) (n : number) :
  parseInt v = Some n ->
  n = NaN \/ is_integer n = true \/ exists s, n = Infinity s.
Proof.
  unfold parseInt. destruct (ToString v) as [s |]; [| discriminate].
  intros [= <-].
  destruct (parseInt_string_range s) as [-> | [z ->]]; [by left |].
  right. apply F_integer_or_infinite.
Qed.

(** ** The coordinate service *)

Lemma convert_falsy p4 (x y : number) :
  number_truthy x = false \/ number_truthy y = false ->
  convertTWD97ToWGS84 p4 x y = (num 0, num 0).
Proof.
  intros H. unfold convertTWD97ToWGS84.
  destruct H as [-> | ->]; [reflexivity |].
  by rewrite orb_true_r.
Qed.

Lemma NaN_falsy (x : number) : isNaN x = true -> number_truthy x = false.
Proof. by destruct x. Qed.

(** ** The records of the two normalizers *)

Lemma prop_Some (obj : JSValue) (key : string) (v : JSValue) :
  prop obj key = Some v -> v = get obj key.
Proof. destruct obj; simpl; congruence. Qed.

(** A record of New Taipei is built when its three conversions do not
    throw, and is then this one. *)
Lemma ntpcRecord_Some p4 t availMap desc r :
  ntpcRecord p4 t availMap desc = Some r <->
  exists x y total,
    parseFloat (getProp desc "TW97X") = Some x
    /\ parseFloat (getProp desc "TW97Y") = Some y
    /\ parseInt (getProp desc "TOTALCAR") = Some total
    /\ r = {| spread := None;
              id := getProp desc "ID";
              name := getProp desc "NAME";
              address := getProp desc "ADDRESS";
              payex := getProp desc "PAYEX";
              totalcar := or_else (JNum total) (JNum (num 0));
              availablecar :=
                nullish (map_get (getProp desc "ID") availMap) (JNum (num (-9)));
              lat := (convertTWD97ToWGS84 p4 x y).1;
              lng := (convertTWD97ToWGS84 p4 x y).2;
              lastUpdated := t;
              source := NTPC |}.
Proof.
  unfold ntpcRecord. split.
  - intros H.
    destruct (parseFloat (getProp desc "TW97X")) as [x |];
      cbn [mbind option_bind] in H; [| discriminate].
    destruct (parseFloat (getProp desc "TW97Y")) as [y |];
      cbn [mbind option_bind] in H; [| discriminate].
    destruct (convertTWD97ToWGS84 p4 x y) as [la ln] eqn:Ec.
    destruct (parseInt (getProp desc "TOTALCAR")) as [total |];
      cbn [mbind option_bind] in H; [| discriminate].
    injection H as <-. exists x, y, total. by rewrite Ec.
  - intros (x & y & total & -> & -> & -> & ->). cbn [mbind option_bind].
    by destruct (convertTWD97ToWGS84 p4 x y).
Qed.

Lemma ntpcRecord_coordinates p4 t availMap desc r :
  ntpcRecord p4 t availMap desc = Some r ->
  exists x y,
    parseFloat (getProp desc "TW97X") = Some x
    /\ parseFloat (getProp desc "TW97Y") = Some y
    /\ (lat r, lng r) = convertTWD97ToWGS84 p4 x y.
Proof.
  intros (x & y & total & Hx & Hy & _ & ->)%ntpcRecord_Some.
  exists x, y. cbn. by destruct (convertTWD97ToWGS84 p4 x y).
Qed.

Lemma taipeiRecord_inv p4 t availMap desc r :
  taipeiRecord p4 t availMap desc = Some r ->
  exists x y,
    parseFloat (get desc "tw97x") = Some x
    /\ parseFloat (get desc "tw97y") = Some y
    /\ (lat r, lng r) = convertTWD97ToWGS84 p4 x y
    /\ spread r = Some desc
    /\ totalcar r = get desc "totalcar"
    /\ availablecar r = nullish (map_get (get desc "id") availMap) (JNum (num (-9))).
Proof.
  unfold taipeiRecord. intros H.
  destruct (prop desc "tw97x") as [vx|] eqn:Ex;
    cbn [mbind option_bind] in H; [|discriminate].
  apply prop_Some in Ex. subst vx.
  destruct (parseFloat (get desc "tw97x")) as [x |];
    cbn [mbind option_bind] in H; [|discriminate].
  destruct (prop desc "tw97y") as [vy|] eqn:Ey;
    cbn [mbind option_bind] in H; [|discriminate].
  apply prop_Some in Ey. subst vy.
  destruct (parseFloat (get desc "tw97y")) as [y |];
    cbn [mbind option_bind] in H; [|discriminate].
  exists x, y.
  destruct (convertTWD97ToWGS84 _ _ _) as [la ln].
  by injection H as <-.
Qed.

Lemma normalizeTaipei_Some p4 t descJson availJson out :
  normalizeTaipei p4 t descJson availJson = Some out ->
  exists descs avails availMap records,
    parkList descJson = Some descs
    /\ parkList availJson = Some avails
    /\ taipeiAvailMap avails [] = Some availMap
    /\ mapM (taipeiRecord p4 t availMap) descs = Some records
    /\ out = List.filter taipeiKeep records.
Proof.
  unfold normalizeTaipei, parkList. intros H.
  destruct (prop descJson "data") as [descData|];
    cbn [mbind option_bind] in *; [|discriminate].
  destruct (prop descData "park") as [parksDesc|];
    cbn [mbind option_bind] in *; [|discriminate].
  destruct (prop availJson "data") as [availData|];
    cbn [mbind option_bind] in *; [|discriminate].
  destruct (prop availData "park") as [parksAvail|];
    cbn [mbind option_bind] in *; [|discriminate].
  destruct (as_array parksAvail) as [avails|];
    cbn [mbind option_bind] in *; [|discriminate].
  destruct (taipeiAvailMap avails []) as [availMap|] eqn:Em;
    cbn [mbind option_bind] in *; [|discriminate].
  destruct (as_array parksDesc) as [descs|];
    cbn [mbind option_bind] in *; [|discriminate].
  destruct (mapM _ descs) as [records|] eqn:Er;
    cbn [mbind option_bind] in *; [|discriminate].
  injection H as <-.
  by exists descs, avails, availMap, records.
Qed.

(** The records [mapM] builds are those of the elements, one by one. *)
Lemma mapM_In {A B : Type} (f : A -> option B) (l : list A) (k : list B) (y : B) :
  mapM f l = Some k -> In y k -> exists x, In x l /\ f x = Some y.
Proof.
  intros Hr Hin. apply mapM_Some_1 in Hr.
  apply list_elem_of_In, list_elem_of_lookup in Hin as [i Hi].
  destruct (Forall2_lookup_r _ _ _ _ _ Hr Hi) as (x & Hx & Hrec).
  exists x. split; [| done].
  apply list_elem_of_In, list_elem_of_lookup. eauto.
Qed.

Lemma mapM_In_l {A B : Type} (f : A -> option B) (l : list A) (k : list B) (x : A) :
  mapM f l = Some k -> In x l -> exists y, In y k /\ f x = Some y.
Proof.
  intros Hr Hin. apply mapM_Some_1 in Hr.
  apply list_elem_of_In, list_elem_of_lookup in Hin as [i Hi].
  destruct (Forall2_lookup_l _ _ _ _ _ Hr Hi) as (y & Hy & Hrec).
  exists y. split; [| done].
  apply list_elem_of_In, list_elem_of_lookup. eauto.
Qed.

(** Every record Taipei emits was built from one of the descriptions and
    passed the filter. *)
Lemma normalizeTaipei_In p4 t descJson availJson out r :
  normalizeTaipei p4 t descJson availJson = Some out -> In r out ->
  exists descs avails availMap desc,
    parkList descJson = Some descs
    /\ parkList availJson = Some avails
    /\ taipeiAvailMap avails [] = Some availMap
    /\ In desc descs
    /\ taipeiRecord p4 t availMap desc = Some r
    /\ taipeiKeep r = true.
Proof.
  intros H Hin.
  destruct (normalizeTaipei_Some _ _ _ _ _ H)
    as (descs & avails & availMap & records & Hd & Ha & Hm & Hr & ->).
  apply filter_In in Hin as [Hin Hkeep].
  destruct (mapM_In _ _ _ _ Hr Hin) as (desc & Hdesc & Hrec).
  by exists descs, avails, availMap, desc.
Qed.

(** What [fetchTaipeiData] returns is empty or the normalization of the
    two documents served. *)
Lemma fetchTaipeiData_result p4 w :
  (fetchTaipeiData p4 w).1 = []
  \/ exists t descJson availJson,
       normalizeTaipei p4 t descJson availJson = Some (fetchTaipeiData p4 w).1.
Proof.
  unfold fetchTaipeiData, bind, fetch, Date_now, ret. cbn.
  destruct (net w TPC_DESC_URL _) as [|[] []]; auto;
    destruct (net w TPC_AVAIL_URL _) as [|[] []]; auto.
  cbn. destruct (normalizeTaipei p4 _ v v0) eqn:E; cbn; eauto.
Qed.

Lemma normalizeNewTaipei_Some p4 t descArray availArray out :
  normalizeNewTaipei p4 t descArray availArray = Some out <->
  exists availMap records,
    ntpcAvailMap availArray = Some availMap
    /\ mapM (ntpcRecord p4 t availMap) descArray = Some records
    /\ out = List.filter ntpcKeep records.
Proof.
  unfold normalizeNewTaipei. split.
  - intros H.
    destruct (ntpcAvailMap availArray) as [availMap |];
      cbn [mbind option_bind] in H; [| discriminate].
    destruct (mapM _ descArray) as [records |] eqn:Er;
      cbn [mbind option_bind] in H; [| discriminate].
    injection H as <-. by exists availMap, records.
  - intros (availMap & records & -> & Hr & ->). cbn [mbind option_bind].
    by rewrite Hr.
Qed.

(** What [fetchNewTaipeiData] returns is empty or the normalization of the
    two datasets gathered. *)
Lemma fetchNewTaipeiData_result p4 w :
  (fetchNewTaipeiData p4 w).1 = []
  \/ exists t descArray availArray,
       normalizeNewTaipei p4 t descArray availArray
       = Some (fetchNewTaipeiData p4 w).1.
Proof.
  unfold fetchNewTaipeiData, bind, Date_now, ret.
  destruct (fetchPages NTPC_DESC_BASE_URL (now w) 0 [] w) as [descArray w1].
  destruct (fetchPages NTPC_AVAIL_BASE_URL (now w) 0 [] w1) as [availArray w2].
  cbn. destruct (normalizeNewTaipei p4 _ descArray availArray) eqn:E; cbn; eauto.
Qed.

Lemma taipeiKeep_nonzero (r : ParkingLotData) :
  taipeiKeep r = true -> is_zero (lat r) = false /\ is_zero (lng r) = false.
Proof.
  unfold taipeiKeep. rewrite andb_true_iff, !negb_true_iff. tauto.
Qed.

Lemma ntpcKeep_inv (r : ParkingLotData) :
  ntpcKeep r = true ->
  is_zero (lat r) = false /\ is_zero (lng r) = false /\ truthy (id r) = true.
Proof.
  unfold ntpcKeep. rewrite !andb_true_iff, !negb_true_iff. tauto.
Qed.

(** Every record New Taipei emits was built from one of the descriptions
    and passed the filter. *)
Lemma normalizeNewTaipei_In p4 t descArray availArray out r :
  normalizeNewTaipei p4 t descArray availArray = Some out -> In r out ->
  exists availMap desc,
    ntpcAvailMap availArray = Some availMap
    /\ In desc descArray
    /\ ntpcRecord p4 t availMap desc = Some r
    /\ ntpcKeep r = true.
Proof.
  intros (availMap & records & Hm & Hr & ->)%normalizeNewTaipei_Some Hin.
  apply filter_In in Hin as [Hin Hkeep].
  destruct (mapM_In _ _ _ _ Hr Hin) as (desc & Hdesc & Hrec).
  by exists availMap, desc.
Qed.

(** ** Coordinates: the (0,0) sentinel *)

(** C8.  No record emitted by either source has both coordinates at the
    (0,0) sentinel: each has [lat !== 0] or [lng !== 0] (the filters in fact
    demand both), and a record of New Taipei has an identifier that is not
    empty. *)
Theorem sentinel_coordinates_never_emitted p4 (w : World) (r : ParkingLotData) :
  In r (fetchTaipeiData p4 w).1 \/ In r (fetchNewTaipeiData p4 w).1 ->
  (is_zero (lat r) = false \/ is_zero (lng r) = false)
  /\ (In r (fetchNewTaipeiData p4 w).1 ->
      truthy (id r) = true /\ id r <> JStr "" /\ id r <> JUndefined).
Proof.
  intros H.
  assert (HB : In r (fetchNewTaipeiData p4 w).1 ->
               is_zero (lat r) = false /\ truthy (id r) = true).
  { destruct (fetchNewTaipeiData_result p4 w) as [E | (t & ds & avs & E)].
    - rewrite E. intros [].
    - intros HB.
      destruct (normalizeNewTaipei_In _ _ _ _ _ _ E HB)
        as (? & ? & _ & _ & _ & Hk).
      apply ntpcKeep_inv in Hk. tauto. }
  split.
  - destruct H as [HA | H]; [| left; by apply HB].
    destruct (fetchTaipeiData_result p4 w) as [E | (t & dj & aj & E)].
    + rewrite E in HA. destruct HA.
    + destruct (normalizeTaipei_In _ _ _ _ _ _ E HA)
        as (? & ? & ? & ? & _ & _ & _ & _ & _ & Hk).
      apply taipeiKeep_nonzero in Hk. tauto.
  - intros [_ Hid]%HB. split; [done |].
    split; intros E; rewrite E in Hid; discriminate.
Qed.

Lemma sentinel_coordinates_never_emitted_witness :
  (is_zero (lat sample_A1) = false \/ is_zero (lng sample_A1) = false)
  /\ (is_zero (lat sample_P1) = false \/ is_zero (lng sample_P1) = false).
Proof.
  split.
  - apply (sentinel_coordinates_never_emitted p4_taipei sample_world sample_A1).
    right. vm_compute. left. reflexivity.
  - apply (sentinel_coordinates_never_emitted p4_taipei sample_world sample_P1).
    left. vm_compute. left. reflexivity.
Defined.

(** C10.  When [x] or [y] is [NaN], as [parseFloat] gives for a string that
    is not a numeral, [convertTWD97ToWGS84] returns exactly (0, 0) whatever
    the projection library would do; the record built from such coordinates
    carries (0, 0) and is not in the output of its normalizer, whether the
    normalization ends normally or in the [catch]. *)
Theorem nan_coordinates_are_dropped p4 (x y : number) :
  isNaN x = true \/ isNaN y = true ->
  convertTWD97ToWGS84 p4 x y = (num 0, num 0)
  /\ (forall t availMap descArray availArray desc r,
        parseFloat (getProp desc "TW97X") = Some x ->
        parseFloat (getProp desc "TW97Y") = Some y ->
        ntpcRecord p4 t availMap desc = Some r ->
        (lat r, lng r) = (num 0, num 0)
        /\ ~ In r (default [] (normalizeNewTaipei p4 t descArray availArray)))
  /\ (forall t availMap descJson availJson desc r,
        parseFloat (get desc "tw97x") = Some x ->
        parseFloat (get desc "tw97y") = Some y ->
        taipeiRecord p4 t availMap desc = Some r ->
        (lat r, lng r) = (num 0, num 0)
        /\ ~ In r (default [] (normalizeTaipei p4 t descJson availJson))).
Proof.
  intros H.
  assert (Hc : convertTWD97ToWGS84 p4 x y = (num 0, num 0)).
  { apply convert_falsy. destruct H as [H | H]; apply NaN_falsy in H; auto. }
  split; [exact Hc |]. split.
  - intros t availMap descArray availArray desc r Hx Hy Hrec.
    assert (Hr : (lat r, lng r) = (num 0, num 0)).
    { apply ntpcRecord_coordinates in Hrec as (x' & y' & Hx' & Hy' & ->).
      congruence. }
    split; [exact Hr |].
    destruct (normalizeNewTaipei p4 t descArray availArray) as [out |] eqn:E;
      [| intros []].
    cbn. intros Hin.
    destruct (normalizeNewTaipei_In _ _ _ _ _ _ E Hin) as (? & ? & _ & _ & _ & Hk).
    apply ntpcKeep_inv in Hk as (Hlat & _). injection Hr as Hr _.
    rewrite Hr in Hlat. discriminate.
  - intros t availMap descJson availJson desc r Hx Hy Hrec.
    assert (Hr : (lat r, lng r) = (num 0, num 0)).
    { apply taipeiRecord_inv in Hrec as (x' & y' & Hx' & Hy' & -> & _).
      congruence. }
    split; [exact Hr |].
    destruct (normalizeTaipei p4 t descJson availJson) as [out |] eqn:E;
      [| intros []].
    cbn. intros Hin.
    destruct (normalizeTaipei_In _ _ _ _ _ _ E Hin)
      as (? & ? & ? & ? & _ & _ & _ & _ & _ & Hk).
    apply taipeiKeep_nonzero in Hk as (Hlat & _). injection Hr as Hr _.
    rewrite Hr in Hlat. discriminate.
Qed.

Lemma nan_coordinates_are_dropped_witness :
  parseFloat (JStr "n/a") = Some NaN
  /\ convertTWD97ToWGS84 p4_taipei NaN (num 2770000) = (num 0, num 0).
Proof.
  split; [reflexivity |].
  apply (nan_coordinates_are_dropped p4_taipei NaN (num 2770000)).
  left. reflexivity.
Defined.

Example bad_coordinate_is_dropped :
  parseFloat (getProp ntpc_desc_bad_x "TW97X") = Some NaN
  /\ normalizeNewTaipei p4_taipei 0 [ntpc_desc_bad_x] [] = Some [].
Proof. split; vm_compute; reflexivity. Qed.

(** ** Maps *)

Section MapValues.

Variable Q : JSValue -> Prop.

Lemma map_set_values (k v : JSValue) (m : JSMap) :
  Q v -> Forall (fun kv => Q kv.2) m -> Forall (fun kv => Q kv.2) (map_set k v m).
Proof.
  intros Hv. induction 1 as [| [k' v'] m Hk Hm IH]; simpl.
  - by repeat constructor.
  - destruct (same_value_zero k' k); constructor; auto.
Qed.

Lemma map_get_values (k : JSValue) (m : JSMap) :
  Forall (fun kv => Q kv.2) m -> map_get k m = JUndefined \/ Q (map_get k m).
Proof.
  induction 1 as [| [k' v'] m Hk Hm IH]; simpl; [by left |].
  destruct (same_value_zero k' k); auto.
Qed.

End MapValues.

Lemma same_value_zero_trans (a b c : JSValue) :
  same_value_zero a b = true -> same_value_zero a c = same_value_zero b c.
Proof.
  destruct a, b; simpl; try discriminate; intros H;
    try apply bool_decide_eq_true in H;
    destruct c; simpl; try reflexivity; by rewrite H.
Qed.

Lemma same_value_zero_sym (a b : JSValue) :
  same_value_zero a b = same_value_zero b a.
Proof.
  destruct a, b; simpl; try reflexivity; apply bool_decide_ext; split; congruence.
Qed.

(** [Map.get] after [Map.set]. *)
Lemma map_get_set (k k' v : JSValue) (m : JSMap) :
  map_get k (map_set k' v m) = if same_value_zero k' k then v else map_get k m.
Proof.
  induction m as [| [k0 v0] m IH]; simpl; [reflexivity |].
  destruct (same_value_zero k0 k') eqn:E0; simpl.
  - rewrite (same_value_zero_trans _ _ k E0).
    by destruct (same_value_zero k' k).
  - rewrite IH. destruct (same_value_zero k0 k) eqn:E1; [| reflexivity].
    destruct (same_value_zero k' k) eqn:E2; [| reflexivity].
    rewrite same_value_zero_sym in E2.
    rewrite (same_value_zero_trans _ _ k' E1), E2 in E0. discriminate.
Qed.

(** ** Availability *)

(** One step of the [forEach] of New Taipei: the conversion of the count
    did not throw, and the map answers for [k] with what the entry stores
    when the entry carries [k], and as before otherwise. *)
Lemma ntpcAvailStep_get (k : JSValue) (availMap availMap' : JSMap) (p : JSValue) :
  ntpcAvailStep availMap p = Some availMap' ->
  exists v, ntpcStored p = Some v
            /\ map_get k availMap'
               = if ntpcMatches p k then v else map_get k availMap.
Proof.
  unfold ntpcAvailStep, ntpcMatches, ntpcStored.
  destruct (parseInt (getProp p "AVAILABLECAR")) as [count |];
    cbn [mbind option_bind]; [| discriminate].
  intros [= <-]. eexists. split; [reflexivity |].
  destruct (truthy (getProp p "ID")); [| reflexivity].
  by rewrite map_get_set.
Qed.

Lemma ntpcAvailLoop_app (l1 l2 : list JSValue) :
  forall availMap,
    ntpcAvailLoop (l1 ++ l2) availMap
    = availMap1 ← ntpcAvailLoop l1 availMap; ntpcAvailLoop l2 availMap1.
Proof.
  induction l1 as [| p l1 IH]; intros availMap; [reflexivity |].
  simpl. destruct (ntpcAvailStep availMap p); cbn [mbind option_bind]; [| reflexivity].
  apply IH.
Qed.

Lemma ntpcAvailLoop_unmatched (k : JSValue) :
  forall l availMap availMap',
    ntpcAvailLoop l availMap = Some availMap' ->
    Forall (fun p => ntpcMatches p k = false) l ->
    map_get k availMap' = map_get k availMap.
Proof.
  induction l as [| p l IH]; intros availMap availMap' Hm Hl; simpl in Hm.
  - by injection Hm as <-.
  - inversion Hl as [| ? ? Hp Hl']; subst.
    destruct (ntpcAvailStep availMap p) as [availMap1 |] eqn:E1;
      cbn [mbind option_bind] in Hm; [| discriminate].
    destruct (ntpcAvailStep_get k _ _ _ E1) as (v & _ & E).
    rewrite Hp in E. by rewrite (IH _ _ Hm Hl'), E.
Qed.

(** What the map of New Taipei answers for an identifier: nothing when no
    entry carries it, and what the last entry carrying it stores. *)
Lemma ntpcAvailMap_lookup (k : JSValue) (availArray : list JSValue)
    (availMap : JSMap) :
  ntpcAvailMap availArray = Some availMap ->
  (Forall (fun p => ntpcMatches p k = false) availArray ->
   map_get k availMap = JUndefined)
  /\ (forall l1 p l2,
        availArray = l1 ++ p :: l2 ->
        ntpcMatches p k = true ->
        Forall (fun q => ntpcMatches q k = false) l2 ->
        ntpcStored p = Some (map_get k availMap)).
Proof.
  unfold ntpcAvailMap. intros Hm. split.
  - intros H. by rewrite (ntpcAvailLoop_unmatched _ _ _ _ Hm H).
  - intros l1 p l2 -> Hp Hl2.
    rewrite ntpcAvailLoop_app in Hm.
    destruct (ntpcAvailLoop l1 []) as [availMap1 |];
      cbn [mbind option_bind] in Hm; [| discriminate].
    simpl in Hm.
    destruct (ntpcAvailStep availMap1 p) as [availMap2 |] eqn:E2;
      cbn [mbind option_bind] in Hm; [| discriminate].
    destruct (ntpcAvailStep_get k _ _ _ E2) as (v & Hv & E).
    rewrite Hp in E.
    by rewrite (ntpcAvailLoop_unmatched _ _ _ _ Hm Hl2), E.
Qed.

Lemma ntpcAvailMap_values (availArray : list JSValue) (availMap : JSMap) :
  ntpcAvailMap availArray = Some availMap ->
  Forall (fun kv => ntpcCount availArray kv.2) availMap.
Proof.
  unfold ntpcAvailMap.
  enough (G : forall l m m', (forall p, In p l -> In p availArray) ->
                Forall (fun kv => ntpcCount availArray kv.2) m ->
                ntpcAvailLoop l m = Some m' ->
                Forall (fun kv => ntpcCount availArray kv.2) m')
    by (intros H; eapply (G availArray []); eauto).
  induction l as [| p l IH]; intros m m' Hl Hm; simpl.
  - by intros [= <-].
  - destruct (ntpcAvailStep m p) as [m1 |] eqn:E1;
      cbn [mbind option_bind]; [| discriminate].
    apply IH; [intros; apply Hl; by right |].
    unfold ntpcAvailStep in E1.
    destruct (parseInt (getProp p "AVAILABLECAR")) as [count |] eqn:Ec;
      cbn [mbind option_bind] in E1; [| discriminate].
    injection E1 as <-.
    destruct (truthy (getProp p "ID")); [| exact Hm].
    apply map_set_values; [| exact Hm].
    destruct (isNaN count) eqn:E.
    + exists (num (-9)). auto.
    + exists count. split; [reflexivity |]. split; [exact E |].
      right. exists p. split; [apply Hl; by left | exact Ec].
Qed.

Lemma taipeiAvailMap_values (avails : list JSValue) (availMap : JSMap) :
  taipeiAvailMap avails [] = Some availMap ->
  Forall (fun kv => taipeiCount avails kv.2) availMap.
Proof.
  enough (G : forall l m m', (forall p, In p l -> In p avails) ->
                Forall (fun kv => taipeiCount avails kv.2) m ->
                taipeiAvailMap l m = Some m' ->
                Forall (fun kv => taipeiCount avails kv.2) m')
    by (intros H; eapply (G avails []); eauto).
  induction l as [| p l IH]; intros m m' Hl Hm; simpl.
  - by intros [= <-].
  - destruct (prop p "id") as [i|]; cbn [mbind option_bind]; [| discriminate].
    destruct (prop p "availablecar") as [a|] eqn:Ea;
      cbn [mbind option_bind]; [| discriminate].
    apply IH; [intros; apply Hl; by right |].
    apply map_set_values; [| exact Hm].
    exists p. split; [apply Hl; by left | by apply prop_Some].
Qed.

Lemma taipeiAvailMap_unmatched (k : JSValue) :
  forall l availMap availMap',
    taipeiAvailMap l availMap = Some availMap' ->
    Forall (fun p => same_value_zero (get p "id") k = false) l ->
    map_get k availMap' = map_get k availMap.
Proof.
  induction l as [| p l IH]; intros availMap availMap' Hm Hl; simpl in Hm.
  - by injection Hm as <-.
  - inversion Hl as [| ? ? Hp Hl']; subst.
    destruct (prop p "id") as [i |] eqn:Ei;
      cbn [mbind option_bind] in Hm; [| discriminate].
    destruct (prop p "availablecar") as [a |] eqn:Ea;
      cbn [mbind option_bind] in Hm; [| discriminate].
    apply prop_Some in Ei as ->.
    by rewrite (IH _ _ Hm Hl'), map_get_set, Hp.
Qed.

Lemma taipeiAvailMap_app (l1 l2 : list JSValue) :
  forall availMap,
    taipeiAvailMap (l1 ++ l2) availMap
    = availMap1 ← taipeiAvailMap l1 availMap; taipeiAvailMap l2 availMap1.
Proof.
  induction l1 as [| p l1 IH]; intros availMap; [reflexivity |].
  simpl. destruct (prop p "id"); cbn [mbind option_bind]; [| reflexivity].
  destruct (prop p "availablecar"); cbn [mbind option_bind]; [| reflexivity].
  apply IH.
Qed.

(** What the map of Taipei answers for an identifier: nothing when no
    entry carries it, and the value of the last entry carrying it. *)
Lemma taipeiAvailMap_lookup (k : JSValue) (avails : list JSValue)
    (availMap : JSMap) :
  taipeiAvailMap avails [] = Some availMap ->
  (Forall (fun p => same_value_zero (get p "id") k = false) avails ->
   map_get k availMap = JUndefined)
  /\ (forall l1 p l2,
        avails = l1 ++ p :: l2 ->
        same_value_zero (get p "id") k = true ->
        Forall (fun q => same_value_zero (get q "id") k = false) l2 ->
        map_get k availMap = get p "availablecar").
Proof.
  intros Hm. split.
  - intros H. by rewrite (taipeiAvailMap_unmatched _ _ _ _ Hm H).
  - intros l1 p l2 -> Hp Hl2.
    rewrite taipeiAvailMap_app in Hm.
    destruct (taipeiAvailMap l1 []) as [availMap1 |];
      cbn [mbind option_bind] in Hm; [| discriminate].
    simpl in Hm.
    destruct (prop p "id") as [i |] eqn:Ei;
      cbn [mbind option_bind] in Hm; [| discriminate].
    destruct (prop p "availablecar") as [a |] eqn:Ea;
      cbn [mbind option_bind] in Hm; [| discriminate].
    apply prop_Some in Ei as ->. apply prop_Some in Ea as ->.
    by rewrite (taipeiAvailMap_unmatched _ _ _ _ Hm Hl2), map_get_set, Hp.
Qed.

Lemma nullish_cases (a b : JSValue) :
  (nullish a b = b /\ (a = JUndefined \/ a = JNull))
  \/ (nullish a b = a /\ a <> JUndefined /\ a <> JNull).
Proof. destruct a; simpl; auto. Qed.

(** C1, as the specification states it, fails: New Taipei emits a record
    whose [availablecar] is -5 when the feed says ["-5"]. *)
Lemma availablecar_outside_spec_range :
  normalizeNewTaipei p4_taipei 1700000000000 [ntpc_desc_A1] [ntpc_avail_A1]
  = Some [sample_A1]
  /\ availablecar sample_A1 = JNum (num (-5))
  /\ ~ spec_availableCount (availablecar sample_A1).
Proof.
  split; [vm_compute; reflexivity |]. split; [reflexivity |].
  intros (z & Hz & Hrange). injection Hz as <-.
  destruct Hrange as [H | H]; [lia |].
  repeat (apply elem_of_cons in H as [H | H]; [discriminate |]).
  by apply elem_of_nil in H.
Qed.

(** C1, amended.  The availability of an emitted record is decided by the
    entries that carry the record's own identifier.
    New Taipei: [availablecar] is a number that is never [NaN], an integer
    of either sign or an infinity (a numeral that overflows).  It is -9
    when no availability entry carries the identifier of the lot;
    otherwise the last entry that carries it decides: -9 when its count
    does not parse, and exactly the number [parseInt] reads in it when it
    does.
    Taipei: [availablecar] is -9 when no entry carries the identifier of
    the lot; otherwise it is the value of the last entry that carries it,
    unchanged, or -9 when that value is [null] or [undefined].
    No range check is made in either. *)
Theorem availablecar_of_emitted_records p4 (t : Z) (r : ParkingLotData) :
  (forall descArray availArray out,
     normalizeNewTaipei p4 t descArray availArray = Some out ->
     In r out ->
     (exists desc, In desc descArray /\ id r = getProp desc "ID")
     /\ exists n,
          availablecar r = JNum n
          /\ isNaN n = false
          /\ (is_integer n = true \/ exists s, n = Infinity s)
          /\ (Forall (fun p => ntpcMatches p (id r) = false) availArray ->
              n = num (-9))
          /\ (forall l1 p l2,
                availArray = l1 ++ p :: l2 ->
                ntpcMatches p (id r) = true ->
                Forall (fun q => ntpcMatches q (id r) = false) l2 ->
                exists count,
                  parseInt (getProp p "AVAILABLECAR") = Some count
                  /\ n = if isNaN count then num (-9) else count))
  /\ (forall descJson availJson out avails,
        normalizeTaipei p4 t descJson availJson = Some out ->
        parkList availJson = Some avails ->
        In r out ->
        (exists desc, spread r = Some desc /\ id r = get desc "id")
        /\ (Forall (fun p => same_value_zero (get p "id") (id r) = false) avails ->
            availablecar r = JNum (num (-9)))
        /\ (forall l1 p l2,
              avails = l1 ++ p :: l2 ->
              same_value_zero (get p "id") (id r) = true ->
              Forall (fun q => same_value_zero (get q "id") (id r) = false) l2 ->
              availablecar r = nullish (get p "availablecar") (JNum (num (-9))))).
Proof.
  split.
  - intros descArray availArray out Hout Hin.
    destruct (normalizeNewTaipei_In _ _ _ _ _ _ Hout Hin)
      as (availMap & desc & Hm & Hdesc & Hrec & _).
    apply ntpcRecord_Some in Hrec as (x & y & total & _ & _ & _ & ->).
    cbn [id availablecar].
    split; [by exists desc |].
    destruct (ntpcAvailMap_lookup (getProp desc "ID") _ _ Hm) as [Hnone Hlast].
    destruct (map_get_values (ntpcCount availArray) (getProp desc "ID") _
                (ntpcAvailMap_values _ _ Hm)) as [E | (n & E & Hn & Hsrc)].
    + rewrite E. exists (num (-9)). simpl. do 4 (split; [by auto |]).
      intros l1 p l2 Hl Hp Hl2. specialize (Hlast l1 p l2 Hl Hp Hl2).
      rewrite E in Hlast. unfold ntpcStored in Hlast.
      destruct (parseInt (getProp p "AVAILABLECAR")); discriminate.
    + rewrite E. exists n. simpl. split; [reflexivity |]. split; [exact Hn |].
      split; [| split].
      * destruct Hsrc as [-> | (p & _ & Hp)]; [by left |].
        destruct (parseInt_range _ _ Hp) as [-> | H]; [discriminate | exact H].
      * intros H. rewrite (Hnone H) in E. discriminate.
      * intros l1 p l2 Hl Hp Hl2. specialize (Hlast l1 p l2 Hl Hp Hl2).
        rewrite E in Hlast. unfold ntpcStored in Hlast.
        destruct (parseInt (getProp p "AVAILABLECAR")) as [count |];
          cbn [mbind option_bind] in Hlast; [| discriminate].
        exists count. split; [reflexivity | congruence].
  - intros descJson availJson out avails Hout Havails Hin.
    destruct (normalizeTaipei_In _ _ _ _ _ _ Hout Hin)
      as (descs & avails' & availMap & desc & _ & Ha & Hm & _ & Hrec & _).
    rewrite Havails in Ha. injection Ha as <-.
    assert (Hid : id r = get desc "id").
    { unfold taipeiRecord in Hrec.
      destruct (prop desc "tw97x"); cbn [mbind option_bind] in Hrec; [| discriminate].
      destruct (parseFloat _); cbn [mbind option_bind] in Hrec; [| discriminate].
      destruct (prop desc "tw97y"); cbn [mbind option_bind] in Hrec; [| discriminate].
      destruct (parseFloat _); cbn [mbind option_bind] in Hrec; [| discriminate].
      destruct (convertTWD97ToWGS84 _ _ _). by injection Hrec as <-. }
    apply taipeiRecord_inv in Hrec as (x & y & _ & _ & _ & Hs & _ & ->).
    rewrite Hid.
    destruct (taipeiAvailMap_lookup (get desc "id") _ _ Hm) as [Hnone Hlast].
    split; [by exists desc |]. split.
    + intros H. by rewrite (Hnone H).
    + intros l1 p l2 Hl Hp Hl2. by rewrite (Hlast l1 p l2 Hl Hp Hl2).
Qed.

Lemma availablecar_of_emitted_records_witness :
  exists n, availablecar sample_A1 = JNum n /\ isNaN n = false
            /\ n = num (-5).
Proof.
  destruct (proj1 (availablecar_of_emitted_records p4_taipei 1700000000000 sample_A1)
              [ntpc_desc_A1] [ntpc_avail_A1] [sample_A1])
    as (_ & n & H1 & H2 & _ & _ & H3).
  - vm_compute. reflexivity.
  - by left.
  - exists n. split; [exact H1 |]. split; [exact H2 |].
    destruct (H3 [] ntpc_avail_A1 []) as (count & Hc & ->).
    + reflexivity.
    + vm_compute. reflexivity.
    + constructor.
    + vm_compute in Hc. by injection Hc as <-.
Defined.

Example unparsable_availability_is_minus_9 :
  option_map (List.map availablecar)
    (normalizeNewTaipei p4_taipei 0 [ntpc_desc_A1]
       [JObj {[ "ID" := JStr "A1"; "AVAILABLECAR" := JStr "full" ]}])
  = Some [JNum (num (-9))].
Proof. vm_compute. reflexivity. Qed.

(** The availability of another lot is not the lot's. *)
Example availability_of_another_lot_is_not_used :
  option_map (List.map availablecar)
    (normalizeNewTaipei p4_taipei 0 [ntpc_desc_A1]
       [JObj {[ "ID" := JStr "Z9"; "AVAILABLECAR" := JStr "77" ]}])
  = Some [JNum (num (-9))].
Proof. vm_compute. reflexivity. Qed.

Example taipei_scenario :
  normalizeTaipei p4_taipei 1700000000000
    (tpc_document [tpc_desc_P1]) (tpc_document [tpc_avail_P1])
  = Some [sample_P1].
Proof. vm_compute. reflexivity. Qed.

Example taipei_passes_negative_availability_through :
  option_map (List.map availablecar)
    (normalizeTaipei p4_taipei 0 (tpc_document [tpc_desc_P1])
       (tpc_document [JObj {[ "id" := JStr "P1"; "availablecar" := JNum (num (-5)) ]}]))
  = Some [JNum (num (-5))].
Proof. vm_compute. reflexivity. Qed.

(** ** Capacity *)

(** C9, as the specification states it, fails: New Taipei emits a record
    whose [totalcar] is -5 when the feed says ["-5"]. *)
Lemma totalcar_negative :
  normalizeNewTaipei p4_taipei 1700000000000 [ntpc_desc_A1] [ntpc_avail_A1]
  = Some [sample_A1]
  /\ totalcar sample_A1 = JNum (num (-5))
  /\ ~ spec_totalCapacity (totalcar sample_A1).
Proof.
  split; [vm_compute; reflexivity |]. split; [reflexivity |].
  intros (z & Hz & Hpos). injection Hz as <-. lia.
Qed.

(** C9, amended.  The capacity of an emitted record is decided by the
    record's own description.
    New Taipei: [totalcar] is [parseInt(TOTALCAR, 10) || 0] of the
    description the record is built from: 0 when the capacity does not
    parse or reads 0, and otherwise exactly the number read, of either sign
    (an infinity if the numeral overflows); it is never [NaN].
    Taipei: [totalcar] is the [totalcar] of the description the record
    spreads, unchanged, with neither parsing nor default. *)
Theorem totalcar_of_emitted_records p4 (t : Z) (r : ParkingLotData) :
  (forall descArray availArray out,
     normalizeNewTaipei p4 t descArray availArray = Some out ->
     In r out ->
     (exists availMap desc,
        ntpcAvailMap availArray = Some availMap
        /\ In desc descArray
        /\ ntpcRecord p4 t availMap desc = Some r)
     /\ (forall availMap desc,
           ntpcRecord p4 t availMap desc = Some r ->
           exists total,
             parseInt (getProp desc "TOTALCAR") = Some total
             /\ totalcar r = JNum (if number_truthy total then total else num 0))
     /\ exists n, totalcar r = JNum n
                  /\ isNaN n = false
                  /\ (is_integer n = true \/ exists s, n = Infinity s))
  /\ (forall descJson availJson out descs,
        normalizeTaipei p4 t descJson availJson = Some out ->
        parkList descJson = Some descs ->
        In r out ->
        exists desc,
          In desc descs
          /\ spread r = Some desc
          /\ totalcar r = get desc "totalcar").
Proof.
  split.
  - intros descArray availArray out Hout Hin.
    destruct (normalizeNewTaipei_In _ _ _ _ _ _ Hout Hin)
      as (availMap & desc & Hm & Hdesc & Hrec & _).
    assert (Hown : forall availMap desc,
               ntpcRecord p4 t availMap desc = Some r ->
               exists total,
                 parseInt (getProp desc "TOTALCAR") = Some total
                 /\ totalcar r = JNum (if number_truthy total then total else num 0)).
    { intros availMap' desc' (x & y & total & _ & _ & Ht & ->)%ntpcRecord_Some.
      exists total. split; [exact Ht |]. cbn [totalcar].
      unfold or_else. cbn [truthy]. by destruct (number_truthy total). }
    split; [by exists availMap, desc |]. split; [exact Hown |].
    destruct (Hown _ _ Hrec) as (total & Ht & ->).
    destruct (number_truthy total) eqn:Etruthy.
    + exists total. split; [reflexivity |].
      assert (Hn : isNaN total = false) by (by destruct total).
      split; [exact Hn |].
      destruct (parseInt_range _ _ Ht) as [-> | H]; [discriminate | exact H].
    + exists (num 0). by auto.
  - intros descJson availJson out descs Hout Hdescs Hin.
    destruct (normalizeTaipei_In _ _ _ _ _ _ Hout Hin)
      as (descs' & avails & availMap & desc & Hd & _ & _ & Hdesc & Hrec & _).
    rewrite Hdescs in Hd. injection Hd as <-.
    apply taipeiRecord_inv in Hrec as (x & y & _ & _ & _ & Hs & Ht & _). eauto.
Qed.

Lemma totalcar_of_emitted_records_witness :
  exists total,
    parseInt (getProp ntpc_desc_A1 "TOTALCAR") = Some total
    /\ totalcar sample_A1 = JNum (if number_truthy total then total else num 0).
Proof.
  destruct (proj1 (totalcar_of_emitted_records p4_taipei 1700000000000 sample_A1)
              [ntpc_desc_A1] [ntpc_avail_A1] [sample_A1]) as (_ & H & _).
  - vm_compute. reflexivity.
  - by left.
  - apply (H [(JStr "A1", JNum (num (-5)))] ntpc_desc_A1).
    vm_compute. reflexivity.
Defined.

Example unparsable_capacity_is_0 :
  option_map (List.map totalcar)
    (normalizeNewTaipei p4_taipei 0
       [JObj {[ "ID" := JStr "A1"; "TW97X" := JStr "300000";
                "TW97Y" := JStr "2770000"; "TOTALCAR" := JStr "unknown" ]};
        JObj {[ "ID" := JStr "A2"; "TW97X" := JStr "300000";
                "TW97Y" := JStr "2770000"; "TOTALCAR" := JStr "0" ]}] [])
  = Some [JNum (num 0); JNum (num 0)].
Proof. vm_compute. reflexivity. Qed.

Example taipei_passes_capacity_through :
  option_map (List.map totalcar)
    (normalizeTaipei p4_taipei 0
       (tpc_document [JObj {[ "id" := JStr "P1"; "tw97x" := JStr "300000";
                              "tw97y" := JStr "2770000";
                              "totalcar" := JNum (num (-5)) ]}])
       (tpc_document []))
  = Some [JNum (num (-5))].
Proof. vm_compute. reflexivity. Qed.

(** ** getProp *)

Lemma get_lookup (fields : gmap string JSValue) (key : string) (v : JSValue) :
  fields !! key = Some v -> get (JObj fields) key = v.
Proof. simpl. by intros ->. Qed.

Lemma or_else_l (a b : JSValue) : truthy a = true -> or_else a b = a.
Proof. unfold or_else. by intros ->. Qed.

Lemma or_else_r (a b : JSValue) : truthy a = false -> or_else a b = b.
Proof. unfold or_else. by intros ->. Qed.

(** C2, as the specification states it, fails: the mixed-case key [Id] is
    none of the three casings tried for [ID]. *)
Lemma getProp_misses_mixed_case :
  getProp (JObj {[ "Id" := JStr "A1" ]}) "ID" = JUndefined
  /\ ~ (getProp (JObj {[ "ID" := JStr "A1" ]}) "ID" = JStr "A1"
        /\ getProp (JObj {[ "id" := JStr "A1" ]}) "ID" = JStr "A1"
        /\ getProp (JObj {[ "Id" := JStr "A1" ]}) "ID" = JStr "A1").
Proof.
  assert (E : getProp (JObj {[ "Id" := JStr "A1" ]}) "ID" = JUndefined)
    by (vm_compute; reflexivity).
  split; [exact E |]. intros (_ & _ & H). rewrite E in H. discriminate.
Qed.

(** C2, amended.  [getProp] returns the first truthy value among the
    properties named by the key as given, by its lower-case form and by
    its upper-case form.  So [{ID: "A1"}] and [{id: "A1"}] resolve to ["A1"]
    for [ID], and [{Id: "A1"}] resolves to [undefined]. *)
Theorem getProp_tolerant_lookup (fields : gmap string JSValue) (key : string)
    (v : JSValue) :
  truthy v = true ->
  (fields !! key = Some v -> getProp (JObj fields) key = v)
  /\ (truthy (get (JObj fields) key) = false ->
      fields !! toLowerCase key = Some v -> getProp (JObj fields) key = v)
  /\ (truthy (get (JObj fields) key) = false ->
      truthy (get (JObj fields) (toLowerCase key)) = false ->
      fields !! toUpperCase key = Some v -> getProp (JObj fields) key = v)
  /\ getProp (JObj {[ "ID" := JStr "A1" ]}) "ID" = JStr "A1"
  /\ getProp (JObj {[ "id" := JStr "A1" ]}) "ID" = JStr "A1"
  /\ getProp (JObj {[ "Id" := JStr "A1" ]}) "ID" = JUndefined.
Proof.
  intros Hv. unfold getProp. cbn [truthy negb].
  split; [| split; [| split]].
  - intros H%get_lookup. rewrite H.
    by rewrite (or_else_l v _ Hv), (or_else_l v _ Hv).
  - intros H0 H%get_lookup. rewrite H.
    by rewrite (or_else_r _ v H0), (or_else_l v _ Hv).
  - intros H0 H1 H%get_lookup. rewrite H.
    by rewrite (or_else_r _ _ H0), (or_else_r _ v H1).
  - by vm_compute.
Qed.

Lemma getProp_tolerant_lookup_witness :
  getProp (JObj {[ "tw97x" := JStr "300000" ]}) "TW97X" = JStr "300000".
Proof.
  apply (proj1 (proj2 (getProp_tolerant_lookup
                         {[ "tw97x" := JStr "300000" ]} "TW97X" (JStr "300000")
                         eq_refl))); reflexivity.
Defined.

(** A falsy value stored under another casing is not found either. *)
Example getProp_skips_falsy_values :
  getProp (JObj {[ "id" := JStr "" ]}) "ID" = JUndefined
  /\ getProp (JObj {[ "id" := JNum (num 0) ]}) "ID" = JUndefined.
Proof. split; vm_compute; reflexivity. Qed.

(** ** The network *)

Lemma logged_nil (w : World) : logged w [] = w.
Proof. destruct w. unfold logged. simpl. by rewrite app_nil_r. Qed.

Lemma logged_logged (w : World) (a b : list Event) :
  logged (logged w a) b = logged w (a ++ b).
Proof. unfold logged. simpl. by rewrite app_assoc. Qed.

Lemma fetch_eq (url : string) (timeout : option Z) (w : World) :
  fetch url timeout w
  = (net w url (requests_to url (log w)), logged w [EvFetch url timeout]).
Proof. reflexivity. Qed.

(** ** fetchWithRetry *)

Lemma proxyAttempts_step (proxyUrl : string) (retries remaining i : nat) (w : World) :
  proxyAttempts proxyUrl retries (S remaining) i w
  = match net w proxyUrl (requests_to proxyUrl (log w)) with
    | Response true (Json v) => (Some v, logged w [EvFetch proxyUrl (Some 8000)])
    | Response true NotJson => (None, logged w [EvFetch proxyUrl (Some 8000)])
    | Response false _ =>
        proxyAttempts proxyUrl retries remaining (S i)
          (logged w [EvFetch proxyUrl (Some 8000)])
    | Response true BodyFails | NetworkError =>
        proxyAttempts proxyUrl retries remaining (S i)
          (logged w (EvFetch proxyUrl (Some 8000)
                     :: if bool_decide (i = retries) then []
                        else [EvSleep (500 * (Z.of_nat i + 1))]))
    end.
Proof.
  cbn [proxyAttempts]. unfold bind at 1. rewrite fetch_eq.
  destruct (net w proxyUrl _) as [| [] []]; try reflexivity;
    destruct (bool_decide (i = retries)); try reflexivity;
    unfold bind, sleep; by rewrite logged_logged.
Qed.

(** A relay that answers every request with a status that is not 2xx is
    asked [remaining] times in a row, without a pause. *)
Lemma proxyAttempts_non2xx (proxyUrl : string) (retries : nat) :
  forall remaining i w,
    (forall k, exists body, net w proxyUrl k = Response false body) ->
    proxyAttempts proxyUrl retries remaining i w
    = (None, logged w (repeat (EvFetch proxyUrl (Some 8000)) remaining)).
Proof.
  induction remaining as [| remaining IH]; intros i w H.
  - simpl. unfold ret. by rewrite logged_nil.
  - rewrite proxyAttempts_step.
    destruct (H (requests_to proxyUrl (log w))) as [body ->].
    rewrite IH by exact H. by rewrite logged_logged.
Qed.

(** A relay that never answers is asked [remaining] times, with a pause of
    [500 * (i + 1)] ms after attempt [i], except after the last one. *)
Lemma proxyAttempts_dead (proxyUrl : string) (retries : nat) :
  forall remaining i w,
    (forall k, net w proxyUrl k = NetworkError) ->
    proxyAttempts proxyUrl retries remaining i w
    = (None, logged w (backoffTrace proxyUrl retries i remaining)).
Proof.
  induction remaining as [| remaining IH]; intros i w H.
  - simpl. unfold ret. by rewrite logged_nil.
  - rewrite proxyAttempts_step, H, IH by exact H.
    by rewrite logged_logged.
Qed.


Lemma requests_to_app (url : string) (a b : list Event) :
  requests_to url (a ++ b) = (requests_to url a + requests_to url b)%nat.
Proof. unfold requests_to. by rewrite List.filter_app, length_app. Qed.





(** One failure and then a page of HTML: two requests, not three; bodies
    that cannot be read: three requests, not one; statuses that are not
    2xx: three requests and no pause. *)
Example relay_attempts_by_answer :
  log (tryProxy "https://relay.example/" 2 error_then_html_world).2
  = [EvFetch "https://relay.example/" (Some 8000); EvSleep 500;
     EvFetch "https://relay.example/" (Some 8000)]
  /\ requests_to "https://relay.example/"
       (log (tryProxy "https://relay.example/" 2 unreadable_world).2) = 3%nat
  /\ log (tryProxy "https://relay.example/" 2 unavailable_world).2
     = repeat (EvFetch "https://relay.example/" (Some 8000)) 3
  /\ log (tryProxy "https://relay.example/" 2 html_world).2
     = [EvFetch "https://relay.example/" (Some 8000)].
Proof. repeat split; vm_compute; reflexivity. Qed.

(** The events of a call: the world it leaves is the one it found, with
    more events in its log. *)
Lemma proxyAttempts_log (proxyUrl : string) (retries : nat) :
  forall remaining i w,
    exists evs, (proxyAttempts proxyUrl retries remaining i w).2 = logged w evs
                /\ directRequests evs = [].
Proof.
  induction remaining as [| remaining IH]; intros i w.
  - exists []. simpl. by rewrite logged_nil.
  - rewrite proxyAttempts_step.
    destruct (net w proxyUrl _) as [| [] []]; try (by eexists; split);
      match goal with
      | |- context [proxyAttempts _ _ _ _ (logged w ?e)] =>
          destruct (IH (S i) (logged w e)) as (evs & -> & Hd);
          exists (e ++ evs); rewrite logged_logged; split; [reflexivity |];
          unfold directRequests in *; rewrite List.filter_app, Hd;
          by destruct (bool_decide (i = retries))
      end.
Qed.

Lemma tryProxies_log (url : string) (retries : nat) :
  forall proxies w,
    exists evs, (tryProxies proxies url retries w).2 = logged w evs
                /\ directRequests evs = [].
Proof.
  induction proxies as [| proxyFn rest IH]; intros w.
  - exists []. simpl. by rewrite logged_nil.
  - cbn [tryProxies]. unfold bind at 1. unfold tryProxy.
    destruct (proxyAttempts_log (proxyFn url) retries (S retries) 0 w)
      as (evs & Hw & Hd).
    destruct (proxyAttempts _ _ _ _ w) as [[v|] w']; simpl in Hw; subst w'.
    + by exists evs.
    + destruct (IH (logged w evs)) as (evs' & -> & Hd').
      exists (evs ++ evs'). rewrite logged_logged. split; [reflexivity |].
      unfold directRequests in *. by rewrite List.filter_app, Hd, Hd'.
Qed.

(** A call of [fetchWithRetry] makes one direct attempt, and then only
    relay attempts and pauses. *)
Lemma fetchWithRetry_log (url : string) (retries : nat) (w : World) :
  exists evs,
    (fetchWithRetry url retries w).2 = logged w (EvFetch url (Some 5000) :: evs)
    /\ directRequests evs = [].
Proof.
  unfold fetchWithRetry, bind. rewrite fetch_eq.
  destruct (net w url _) as [| [] []];
    try (destruct (tryProxies_log url retries PROXIES
                     (logged w [EvFetch url (Some 5000)])) as (evs & -> & Hd);
         exists evs; by rewrite logged_logged).
  exists []. by split.
Qed.

Lemma tryProxies_dead (url : string) (retries : nat) :
  forall proxies w,
    (forall proxyFn k, In proxyFn proxies -> net w (proxyFn url) k = NetworkError) ->
    exists e,
      tryProxies proxies url retries w
      = (Throw e,
         logged w (concat (List.map (fun proxyFn : string -> string =>
                                       backoffTrace (proxyFn url) retries 0 (S retries))
                                    proxies))).
Proof.
  induction proxies as [| proxyFn rest IH]; intros w Hp.
  - eexists. simpl. unfold ret. by rewrite logged_nil.
  - cbn [tryProxies]. unfold bind at 1. unfold tryProxy.
    rewrite proxyAttempts_dead by (intros; apply Hp; by left).
    destruct (IH (logged w (backoffTrace (proxyFn url) retries 0 (S retries))))
      as [e ->]; [intros; apply Hp; by right |].
    exists e. by rewrite logged_logged.
Qed.

(** When neither the URL nor its relays answer, every strategy is tried
    and the call throws. *)
Lemma fetchWithRetry_dead (url : string) (retries : nat) (w : World) :
  (forall k, net w url k = NetworkError) ->
  (forall proxyFn k, In proxyFn PROXIES -> net w (proxyFn url) k = NetworkError) ->
  exists e,
    fetchWithRetry url retries w
    = (Throw e,
       logged w (EvFetch url (Some 5000)
                 :: concat (List.map (fun proxyFn : string -> string =>
                                        backoffTrace (proxyFn url) retries 0 (S retries))
                                     PROXIES))).
Proof.
  intros Hd Hp.
  unfold fetchWithRetry, bind. rewrite fetch_eq, Hd.
  destruct (tryProxies_dead url retries PROXIES (logged w [EvFetch url (Some 5000)]) Hp)
    as [e ->].
  exists e. by rewrite logged_logged.
Qed.

(** ** fetchAllNTPCData *)

Lemma fetchPages_eq (baseUrl : string) (ts : Z) (page : nat)
    (allData : list JSValue) (w : World) :
  fetchPages baseUrl ts page allData w
  = match fetchWithRetry (pageUrl baseUrl page ts) 2 w with
    | (Throw _, w') => (allData, w')
    | (Ok data, w') =>
        if lastPage data then (allData, w')
        else if decide (15 < S page)%nat then (allData ++ array_items data, w')
        else fetchPages baseUrl ts (S page) (allData ++ array_items data) w'
    end.
Proof.
  simp fetchPages.
  destruct (fetchWithRetry _ 2 w) as [[data | e] w']; simpl; [| reflexivity].
  destruct (lastPage data); simpl; [reflexivity |].
  destruct (decide (15 < S page)%nat); reflexivity.
Qed.

Lemma lastPage_false (data : JSValue) :
  lastPage data = false <-> exists item items, data = JArr (item :: items).
Proof.
  split.
  - destruct data as [| | b | x | str | [| item items] |];
      cbn; try discriminate; [by destruct b | | | eauto].
    + unfold lastPage. cbn. by rewrite orb_true_r.
    + unfold lastPage. cbn. by rewrite orb_true_r.
  - by intros (item & items & ->).
Qed.

Lemma fetchAllNTPCData_eq (baseUrl : string) (w : World) :
  fetchAllNTPCData baseUrl w = fetchPages baseUrl (now w) 0 [] w.
Proof. reflexivity. Qed.

(** While pages keep coming, the loop goes on with what it has gathered. *)
Lemma fetchPages_collected (baseUrl : string) (ts : Z) page w pages w1 :
  collected baseUrl ts page w pages w1 ->
  (page + length pages <= 15)%nat ->
  forall allData,
    fetchPages baseUrl ts page allData w
    = fetchPages baseUrl ts (page + length pages) (allData ++ concat pages) w1.
Proof.
  induction 1 as [page w | page w data w' pages w'' Hfetch Hlast _ IH];
    intros Hle allData.
  - simpl. by rewrite Nat.add_0_r, app_nil_r.
  - simpl in *. rewrite fetchPages_eq, Hfetch, Hlast.
    destruct (decide (15 < S page)%nat); [lia |].
    rewrite IH by lia. rewrite <- app_assoc. f_equal. lia.
Qed.

(** C6.  When the fetch of a page fails, or returns something that is not
    a non-empty array, after [pages] were gathered, the paginator returns
    the concatenation of [pages]; the world it leaves is the one that fetch
    left, so no page is requested after it. *)
Theorem paginator_keeps_partial_results (baseUrl : string) (w : World)
    (pages : list (list JSValue)) (w1 : World) :
  collected baseUrl (now w) 0 w pages w1 ->
  (length pages <= 15)%nat ->
  (forall e w2,
     fetchWithRetry (pageUrl baseUrl (length pages) (now w)) 2 w1 = (Throw e, w2) ->
     fetchAllNTPCData baseUrl w = (concat pages, w2))
  /\ (forall data w2,
        fetchWithRetry (pageUrl baseUrl (length pages) (now w)) 2 w1 = (Ok data, w2) ->
        (forall item items, data <> JArr (item :: items)) ->
        fetchAllNTPCData baseUrl w = (concat pages, w2)).
Proof.
  intros Hpages Hle. rewrite fetchAllNTPCData_eq.
  rewrite (fetchPages_collected _ _ _ _ _ _ Hpages) by (simpl; lia).
  simpl. split.
  - intros e w2 Hfetch. by rewrite fetchPages_eq, Hfetch.
  - intros data w2 Hfetch Hdata. rewrite fetchPages_eq, Hfetch.
    destruct (lastPage data) eqn:Hlast; [reflexivity |].
    apply lastPage_false in Hlast as (item & items & ->).
    by destruct (Hdata item items).
Qed.

Lemma paginator_keeps_partial_results_witness :
  (fetchAllNTPCData NTPC_DESC_BASE_URL four_pages_world).1
  = [JNum (num 0); JNum (num 1); JNum (num 2); JNum (num 3)].
Proof.
  assert (H : exists w1, collected NTPC_DESC_BASE_URL (now four_pages_world) 0
                four_pages_world
                [[JNum (num 0)]; [JNum (num 1)]; [JNum (num 2)]; [JNum (num 3)]] w1
              /\ exists e w2, fetchWithRetry
                   (pageUrl NTPC_DESC_BASE_URL 4 (now four_pages_world)) 2 w1
                 = (Throw e, w2)).
  { eexists. split.
    - repeat (eapply (collected_page _ _ _ _ (JArr [_]));
              [vm_compute; reflexivity | reflexivity |]).
      apply collected_none.
    - do 2 eexists. vm_compute. reflexivity. }
  destruct H as (w1 & Hpages & e & w2 & Hfail).
  rewrite (proj1 (paginator_keeps_partial_results _ _ _ _ Hpages
                    ltac:(simpl; lia)) e w2 Hfail).
  reflexivity.
Defined.

(** The scenario of the specification: page 0 has one record and page 1 is
    [[]]; the record is returned and page 2 is not requested. *)
Example one_page_then_empty :
  let '(descArray, w) := fetchAllNTPCData NTPC_DESC_BASE_URL sample_world in
  descArray = [ntpc_desc_A1; ntpc_desc_bad_x]
  /\ log w = [EvFetch (pageUrl NTPC_DESC_BASE_URL 0 1700000000000) (Some 5000);
              EvFetch (pageUrl NTPC_DESC_BASE_URL 1 1700000000000) (Some 5000)].
Proof. vm_compute. split; reflexivity. Qed.

Lemma directRequests_direct (url : string) (evs : list Event) :
  directRequests (EvFetch url (Some 5000) :: evs)
  = EvFetch url (Some 5000) :: directRequests evs.
Proof. reflexivity. Qed.

(** The direct attempts of the loop entered at [page]: one per page, for
    consecutive pages, 16 being the first page never requested. *)
Lemma fetchPages_requests (baseUrl : string) (ts : Z) :
  forall n page allData w,
    (page + S n = 16)%nat ->
    exists k evs,
      (page + k <= 16)%nat
      /\ (fetchPages baseUrl ts page allData w).2 = logged w evs
      /\ directRequests evs
         = List.map (fun p => EvFetch (pageUrl baseUrl p ts) (Some 5000)) (seq page k).
Proof.
  induction n as [| n IH]; intros page allData w Hpage;
    rewrite fetchPages_eq;
    destruct (fetchWithRetry_log (pageUrl baseUrl page ts) 2 w) as (evs & Hw & Hd);
    destruct (fetchWithRetry _ 2 w) as [[data | e] w']; simpl in Hw; subst w';
    try destruct (lastPage data);
    try destruct (decide (15 < S page)%nat);
    try (exists 1%nat, (EvFetch (pageUrl baseUrl page ts) (Some 5000) :: evs);
         rewrite directRequests_direct, Hd;
         split; [lia | split; reflexivity]);
    try lia.
  destruct (IH (S page) (allData ++ array_items data)
              (logged w (EvFetch (pageUrl baseUrl page ts) (Some 5000) :: evs)))
    as (k & evs' & Hk & -> & Hd'); [lia |].
  exists (S k), ((EvFetch (pageUrl baseUrl page ts) (Some 5000) :: evs) ++ evs').
  rewrite logged_logged. split; [lia |]. split; [reflexivity |].
  cbn [app]. rewrite directRequests_direct. unfold directRequests in *.
  rewrite List.filter_app, Hd, Hd'. reflexivity.
Qed.

(** C7.  Whatever the upstream answers, a call of [fetchAllNTPCData] makes
    at most 16 page requests: one for each of the pages 0, ..., k-1, with
    k <= 16. *)
Theorem paginator_requests_at_most_16_pages (baseUrl : string) (w : World) :
  exists k evs,
    (k <= 16)%nat
    /\ (fetchAllNTPCData baseUrl w).2 = logged w evs
    /\ directRequests evs
       = List.map (fun p => EvFetch (pageUrl baseUrl p (now w)) (Some 5000)) (seq 0 k)
    /\ (length (directRequests evs) <= 16)%nat.
Proof.
  rewrite fetchAllNTPCData_eq.
  destruct (fetchPages_requests baseUrl (now w) 15 0 [] w eq_refl)
    as (k & evs & Hk & Hw & Hd).
  exists k, evs. split; [lia |]. split; [exact Hw |]. split; [exact Hd |].
  rewrite Hd, List.length_map, List.length_seq. lia.
Qed.

(** On a dataset that never ends, pages 0 to 15 are requested and kept. *)
Example endless_dataset_stops_after_16_pages :
  let '(data, w) := fetchAllNTPCData NTPC_DESC_BASE_URL endless_world in
  length data = 16%nat /\ length (log w) = 16%nat.
Proof. vm_compute. split; reflexivity. Qed.

(** ** fetchTaipeiData and the relays *)

Lemma fetchTaipeiData_world p4 (w : World) :
  (fetchTaipeiData p4 w).2
  = logged w [EvFetch TPC_DESC_URL None; EvFetch TPC_AVAIL_URL None].
Proof.
  unfold fetchTaipeiData, bind, Date_now, ret. rewrite !fetch_eq.
  cbn [snd]. by rewrite logged_logged.
Qed.

Lemma fetchTaipeiData_needs_both p4 (w : World) :
  (forall v, net w TPC_DESC_URL (requests_to TPC_DESC_URL (log w))
             <> Response true (Json v))
  \/ (forall v, net w TPC_AVAIL_URL (requests_to TPC_AVAIL_URL (log w))
                <> Response true (Json v)) ->
  (fetchTaipeiData p4 w).1 = [].
Proof.
  intros H. unfold fetchTaipeiData, bind, Date_now, ret. rewrite !fetch_eq.
  cbn [fst].
  change (log (logged w [EvFetch TPC_DESC_URL None]))
    with (log w ++ [EvFetch TPC_DESC_URL None]).
  change (net (logged w [EvFetch TPC_DESC_URL None])) with (net w).
  replace (requests_to TPC_AVAIL_URL (log w ++ [EvFetch TPC_DESC_URL None]))
    with (requests_to TPC_AVAIL_URL (log w)).
  2: { unfold requests_to. rewrite List.filter_app, length_app. simpl. lia. }
  destruct (net w TPC_DESC_URL _) as [| [] [| | descJson]];
    destruct (net w TPC_AVAIL_URL _) as [| [] [| | availJson]];
    try reflexivity.
  destruct H as [H | H]; by destruct (H _ eq_refl).
Qed.

(** C5, as the specification states it, fails: when nothing answers, Taipei
    makes its two requests and no other; no relay is tried. *)
Lemma taipei_never_uses_relays :
  fetchTaipeiData p4_taipei dead_world
  = ([], logged dead_world [EvFetch TPC_DESC_URL None; EvFetch TPC_AVAIL_URL None])
  /\ ~ spec_taipei_tries_relays.
Proof.
  split; [vm_compute; reflexivity |].
  intros H. destruct (H p4_taipei dead_world eq_refl) as (proxyFn & Hin & Hreq).
  destruct Hin as [<- | [<- | []]]; vm_compute in Hreq; lia.
Qed.

(** C5, amended.  Only the page fetches of New Taipei go through
    [fetchWithRetry]: when nothing answers, a page is asked for directly
    and then through each relay with its retries.  Taipei makes one plain
    request to each of its two endpoints, with neither relay nor retry, and
    contributes nothing unless both answer 2xx with a JSON body. *)
Theorem taipei_is_fetched_directly p4 (w : World) :
  (fetchTaipeiData p4 w).2
  = logged w [EvFetch TPC_DESC_URL None; EvFetch TPC_AVAIL_URL None]
  /\ ((forall v, net w TPC_DESC_URL (requests_to TPC_DESC_URL (log w))
                 <> Response true (Json v)) ->
      (fetchTaipeiData p4 w).1 = [])
  /\ ((forall v, net w TPC_AVAIL_URL (requests_to TPC_AVAIL_URL (log w))
                 <> Response true (Json v)) ->
      (fetchTaipeiData p4 w).1 = [])
  /\ (forall baseUrl,
        (forall url k, net w url k = NetworkError) ->
        fetchAllNTPCData baseUrl w
        = ([], logged w
                 (EvFetch (pageUrl baseUrl 0 (now w)) (Some 5000)
                  :: concat (List.map
                               (fun proxyFn : string -> string =>
                                  backoffTrace (proxyFn (pageUrl baseUrl 0 (now w))) 2 0 3)
                               PROXIES)))).
Proof.
  split; [apply fetchTaipeiData_world |].
  split; [intros; apply fetchTaipeiData_needs_both; by left |].
  split; [intros; apply fetchTaipeiData_needs_both; by right |].
  intros baseUrl Hdead. rewrite fetchAllNTPCData_eq, fetchPages_eq.
  destruct (fetchWithRetry_dead (pageUrl baseUrl 0 (now w)) 2 w) as [e ->]; auto.
Qed.

Lemma taipei_is_fetched_directly_witness :
  (fetchTaipeiData p4_taipei dead_world).1 = []
  /\ (fetchAllNTPCData NTPC_DESC_BASE_URL dead_world).1 = [].
Proof.
  split.
  - apply (proj1 (proj2 (taipei_is_fetched_directly p4_taipei dead_world))).
    intros v. discriminate.
  - rewrite (proj2 (proj2 (proj2 (taipei_is_fetched_directly p4_taipei dead_world)))
               NTPC_DESC_BASE_URL); [reflexivity |].
    intros url k. reflexivity.
Defined.

(** ** fetchParkingData *)

Lemma fetchParkingData_eq p4 (w : World) :
  (fetchParkingData p4 w).1
  = let tpcData := (fetchTaipeiData p4 w).1 in
    let ntpcData := (fetchNewTaipeiData p4 (fetchTaipeiData p4 w).2).1 in
    if (length (tpcData ++ ntpcData) =? 0)%nat then Throw NoDataAvailable
    else Ok (tpcData ++ ntpcData).
Proof.
  unfold fetchParkingData, bind.
  destruct (fetchTaipeiData p4 w) as [tpcData w1]. cbn [fst snd].
  destruct (fetchNewTaipeiData p4 w1) as [ntpcData w2]. cbn [fst].
  by destruct (length (tpcData ++ ntpcData) =? 0)%nat.
Qed.

Lemma pageUrl_not_taipei (baseUrl : string) (page : nat) (ts : Z) :
  baseUrl = NTPC_DESC_BASE_URL \/ baseUrl = NTPC_AVAIL_BASE_URL ->
  pageUrl baseUrl page ts <> TPC_DESC_URL /\ pageUrl baseUrl page ts <> TPC_AVAIL_URL.
Proof. intros [-> | ->]; split; intros E; discriminate E. Qed.

Lemma proxy_not_taipei (proxyFn : string -> string) (url : string) :
  In proxyFn PROXIES ->
  proxyFn url <> TPC_DESC_URL /\ proxyFn url <> TPC_AVAIL_URL.
Proof. intros [<- | [<- | []]]; split; intros E; discriminate E. Qed.

(** When no request of New Taipei is answered, New Taipei contributes
    nothing. *)
Lemma fetchNewTaipeiData_unreachable p4 (w : World) :
  (forall url k, url <> TPC_DESC_URL -> url <> TPC_AVAIL_URL ->
                 net w url k = NetworkError) ->
  (fetchNewTaipeiData p4 w).1 = [].
Proof.
  intros H. unfold fetchNewTaipeiData, bind, Date_now.
  rewrite fetchPages_eq.
  destruct (fetchWithRetry_dead (pageUrl NTPC_DESC_BASE_URL 0 (now w)) 2 w)
    as [e ->].
  - intros k. apply H; apply pageUrl_not_taipei; by left.
  - intros proxyFn k Hin. apply H; by apply proxy_not_taipei.
  - destruct (fetchPages NTPC_AVAIL_BASE_URL _ _ _ _) as [availArray w2].
    unfold ret, normalizeNewTaipei. cbn [fst].
    by destruct (ntpcAvailMap availArray).
Qed.

(** C4.  [fetchParkingData] returns the records of Taipei followed by those
    of New Taipei; it throws exactly when both sources contribute nothing;
    when one source contributes nothing, because it failed or because it
    had nothing, the records of the other are returned. *)
Theorem aggregate_contract p4 (w : World) :
  let tpcData := (fetchTaipeiData p4 w).1 in
  let ntpcData := (fetchNewTaipeiData p4 (fetchTaipeiData p4 w).2).1 in
  let result := (fetchParkingData p4 w).1 in
  (tpcData ++ ntpcData <> [] -> result = Ok (tpcData ++ ntpcData))
  /\ (result = Throw NoDataAvailable <-> tpcData = [] /\ ntpcData = [])
  /\ (ntpcData = [] -> tpcData <> [] -> result = Ok tpcData)
  /\ (tpcData = [] -> ntpcData <> [] -> result = Ok ntpcData)
  /\ ((forall url k, url <> TPC_DESC_URL -> url <> TPC_AVAIL_URL ->
                     net w url k = NetworkError) ->
      ntpcData = [])
  /\ (net w TPC_DESC_URL (requests_to TPC_DESC_URL (log w)) = NetworkError ->
      tpcData = []).
Proof.
  intros tpcData ntpcData result.
  assert (E : result = if (length (tpcData ++ ntpcData) =? 0)%nat
                       then Throw NoDataAvailable else Ok (tpcData ++ ntpcData))
    by apply fetchParkingData_eq.
  assert (Hne : tpcData ++ ntpcData <> [] -> result = Ok (tpcData ++ ntpcData)).
  { intros Hne. rewrite E. destruct (tpcData ++ ntpcData); [done | reflexivity]. }
  split; [exact Hne |]. split; [| split; [| split; [| split]]].
  - split.
    + intros Hthrow. destruct (tpcData ++ ntpcData) eqn:Eapp.
      * by apply app_eq_nil in Eapp.
      * rewrite E in Hthrow. discriminate.
    + intros [Ht Hn]. rewrite E, Ht, Hn. reflexivity.
  - intros Hn Ht. rewrite Hne; rewrite Hn, app_nil_r; done.
  - intros Ht Hn. rewrite Hne; rewrite Ht; done.
  - intros H. apply fetchNewTaipeiData_unreachable.
    by rewrite fetchTaipeiData_world.
  - intros H. apply fetchTaipeiData_needs_both. left. intros v. by rewrite H.
Qed.

Lemma aggregate_contract_witness :
  (fetchParkingData p4_taipei taipei_only_world).1 = Ok [sample_P1]
  /\ (fetchParkingData p4_taipei sample_world).1 = Ok [sample_P1; sample_A1].
Proof.
  split.
  - destruct (aggregate_contract p4_taipei taipei_only_world)
      as (_ & _ & Honly & _ & Hdead & _).
    rewrite Honly.
    + vm_compute. reflexivity.
    + apply Hdead. intros url k H1 H2. unfold taipei_only_world. cbn [net].
      by rewrite !bool_decide_eq_false_2.
    + vm_compute. discriminate.
  - rewrite (proj1 (aggregate_contract p4_taipei sample_world)).
    + vm_compute. reflexivity.
    + vm_compute. discriminate.
Defined.

Example nothing_answers :
  (fetchParkingData p4_taipei dead_world).1 = Throw NoDataAvailable.
Proof. vm_compute. reflexivity. Qed.

(** * Further properties *)

(** ** fetchWithRetry: what is returned, and at what cost *)

Lemma fetchCount_app (a b : list Event) :
  fetchCount (a ++ b) = (fetchCount a + fetchCount b)%nat.
Proof. unfold fetchCount. by rewrite List.filter_app, length_app. Qed.

Lemma pauseTotal_app (a b : list Event) :
  pauseTotal (a ++ b) = pauseTotal a + pauseTotal b.
Proof. induction a as [| [] a IH]; simpl; lia. Qed.

(** A value returned by the loop over a relay was served by that relay
    with a 2xx status, in answer to the last request made. *)
Lemma proxyAttempts_served (proxyUrl : string) (retries : nat) :
  forall remaining i w v w',
    proxyAttempts proxyUrl retries remaining i w = (Some v, w') ->
    exists evs,
      w' = logged w (evs ++ [EvFetch proxyUrl (Some 8000)])
      /\ net w proxyUrl (requests_to proxyUrl (log w ++ evs)) = Response true (Json v).
Proof.
  induction remaining as [| remaining IH]; intros i w v w'; [discriminate |].
  rewrite proxyAttempts_step.
  destruct (net w proxyUrl (requests_to proxyUrl (log w))) as [| [] [| | v0]] eqn:E;
    try discriminate;
    try (intros H; apply IH in H as (evs & -> & Hnet);
         match type of Hnet with
         | context [log (logged w ?e)] =>
             exists (e ++ evs); rewrite logged_logged, <- app_assoc;
             split; [reflexivity |];
             change (log (logged w e)) with (log w ++ e) in Hnet;
             by rewrite <- app_assoc in Hnet
         end).
  intros [= <- <-]. exists []. by rewrite app_nil_r.
Qed.

Lemma tryProxies_outcome (url : string) (retries : nat) :
  forall proxies w,
    match tryProxies proxies url retries w with
    | (Ok v, w') =>
        exists proxyFn evs,
          In proxyFn proxies
          /\ w' = logged w (evs ++ [EvFetch (proxyFn url) (Some 8000)])
          /\ net w (proxyFn url) (requests_to (proxyFn url) (log w ++ evs))
             = Response true (Json v)
    | (Throw e, _) =>
        e = mkError ("Unable to fetch data from " +:+ url +:+ " even with proxies.")
    end.
Proof.
  induction proxies as [| proxyFn rest IH]; intros w; [reflexivity |].
  cbn [tryProxies]. unfold bind at 1, tryProxy.
  destruct (proxyAttempts_log (proxyFn url) retries (S retries) 0 w) as (evs0 & Hw & _).
  destruct (proxyAttempts _ _ _ _ w) as [[v |] w1] eqn:E.
  - apply proxyAttempts_served in E as (evs & -> & Hnet).
    exists proxyFn, evs. split; [by left | by split].
  - simpl in Hw. subst w1. specialize (IH (logged w evs0)).
    destruct (tryProxies rest url retries (logged w evs0)) as [[v | e] w2]; [| exact IH].
    destruct IH as (proxyFn' & evs & Hin & -> & Hnet).
    exists proxyFn', (evs0 ++ evs). split; [by right |].
    rewrite logged_logged, <- app_assoc. split; [reflexivity |].
    change (log (logged w evs0)) with (log w ++ evs0) in Hnet.
    by rewrite <- app_assoc in Hnet.
Qed.

(** X1.  What [fetchWithRetry] returns was served with a 2xx status and a
    JSON body by the URL itself or by one of its relays, in answer to the
    last request of the call: nothing is requested after a success.  When
    it throws, the error names the URL. *)
Theorem fetchWithRetry_outcome (url : string) (retries : nat) (w : World) :
  match fetchWithRetry url retries w with
  | (Ok v, w') =>
      exists u timeout evs,
        In u (strategies url)
        /\ w' = logged w (evs ++ [EvFetch u timeout])
        /\ net w u (requests_to u (log w ++ evs)) = Response true (Json v)
  | (Throw e, _) =>
      e = mkError ("Unable to fetch data from " +:+ url +:+ " even with proxies.")
  end.
Proof.
  unfold fetchWithRetry, bind. rewrite fetch_eq.
  pose proof (tryProxies_outcome url retries PROXIES
                (logged w [EvFetch url (Some 5000)])) as H.
  assert (G : match tryProxies PROXIES url retries (logged w [EvFetch url (Some 5000)]) with
              | (Ok v, w') =>
                  exists u timeout evs,
                    In u (strategies url)
                    /\ w' = logged w (evs ++ [EvFetch u timeout])
                    /\ net w u (requests_to u (log w ++ evs)) = Response true (Json v)
              | (Throw e, _) =>
                  e = mkError ("Unable to fetch data from " +:+ url
                               +:+ " even with proxies.")
              end).
  { destruct (tryProxies PROXIES url retries _) as [[v | e] w']; [| exact H].
    destruct H as (proxyFn & evs & Hin & -> & Hnet).
    exists (proxyFn url), (Some 8000), (EvFetch url (Some 5000) :: evs).
    split; [right; by apply (in_map (fun f : string -> string => f url)) |].
    rewrite logged_logged. split; [reflexivity |].
    change (log (logged w [EvFetch url (Some 5000)]))
      with (log w ++ [EvFetch url (Some 5000)]) in Hnet.
    by rewrite <- app_assoc in Hnet. }
  destruct (net w url (requests_to url (log w))) as [| [] [| | v]] eqn:E;
    try exact G.
  exists url, (Some 5000), []. split; [by left |].
  by rewrite app_nil_r.
Qed.

(** The cost of the loop over one relay: at most [remaining] requests, and
    pauses that add up to at most [250 * retries * (retries + 1)] ms. *)
Lemma proxyAttempts_budget (proxyUrl : string) (retries : nat) :
  forall remaining i w,
    (i + remaining = S retries)%nat ->
    exists evs,
      (proxyAttempts proxyUrl retries remaining i w).2 = logged w evs
      /\ (fetchCount evs <= remaining)%nat
      /\ 0 <= pauseTotal evs
      /\ (remaining = 0%nat -> pauseTotal evs = 0)
      /\ (remaining <> 0%nat ->
          2 * pauseTotal evs + 500 * Z.of_nat i * (Z.of_nat i + 1)
          <= 500 * Z.of_nat retries * (Z.of_nat retries + 1)).
Proof.
  induction remaining as [| remaining IH]; intros i w Hi.
  - exists []. simpl. rewrite logged_nil. repeat split; (done || lia).
  - rewrite proxyAttempts_step.
    set (f := EvFetch proxyUrl (Some 8000)).
    assert (Hone : exists evs,
               (@None JSValue, logged w [f]).2 = logged w evs
               /\ (fetchCount evs <= S remaining)%nat /\ 0 <= pauseTotal evs
               /\ (S remaining = 0%nat -> pauseTotal evs = 0)
               /\ (S remaining <> 0%nat ->
                   2 * pauseTotal evs + 500 * Z.of_nat i * (Z.of_nat i + 1)
                   <= 500 * Z.of_nat retries * (Z.of_nat retries + 1))).
    { exists [f]. repeat split; try done; cbn; try lia. nia. }
    assert (Hrec : forall pauses,
               pauses = [] \/ (i <> retries /\ pauses = [EvSleep (500 * (Z.of_nat i + 1))]) ->
               exists evs,
                 (proxyAttempts proxyUrl retries remaining (S i)
                    (logged w (f :: pauses))).2 = logged w evs
                 /\ (fetchCount evs <= S remaining)%nat /\ 0 <= pauseTotal evs
                 /\ (S remaining = 0%nat -> pauseTotal evs = 0)
                 /\ (S remaining <> 0%nat ->
                     2 * pauseTotal evs + 500 * Z.of_nat i * (Z.of_nat i + 1)
                     <= 500 * Z.of_nat retries * (Z.of_nat retries + 1))).
    { intros pauses Hpauses.
      destruct (IH (S i) (logged w (f :: pauses))) as (evs & -> & Hc & Hp & H0 & H1);
        [lia |].
      exists ((f :: pauses) ++ evs). rewrite logged_logged.
      split; [reflexivity |]. rewrite fetchCount_app, pauseTotal_app.
      assert (Hf : fetchCount (f :: pauses) = 1%nat)
        by (destruct Hpauses as [-> | [_ ->]]; reflexivity).
      rewrite Hf. subst f.
      destruct Hpauses as [-> | [Hne ->]]; cbn [pauseTotal].
      - split; [lia |]. split; [lia |]. split; [lia |]. intros _.
        destruct remaining;
          [assert (i = retries) by lia; subst i; rewrite H0 by done; lia
          | specialize (H1 ltac:(done)); nia].
      - split; [lia |]. split; [lia |]. split; [lia |]. intros _.
        destruct remaining; [lia |]. specialize (H1 ltac:(done)). nia. }
    destruct (net w proxyUrl _) as [| [] []];
      try exact Hone;
      try (apply Hrec; by left);
      (destruct (bool_decide_reflect (i = retries));
       apply Hrec; [by left | by right]).
Qed.

Lemma tryProxies_budget (url : string) (retries : nat) :
  forall proxies w,
    exists evs,
      (tryProxies proxies url retries w).2 = logged w evs
      /\ (fetchCount evs <= length proxies * S retries)%nat
      /\ 0 <= pauseTotal evs
      /\ 2 * pauseTotal evs
         <= Z.of_nat (length proxies) * (500 * Z.of_nat retries * (Z.of_nat retries + 1)).
Proof.
  induction proxies as [| proxyFn rest IH]; intros w.
  - exists []. simpl. rewrite logged_nil. repeat split; (done || lia).
  - cbn [tryProxies]. unfold bind at 1, tryProxy.
    destruct (proxyAttempts_budget (proxyFn url) retries (S retries) 0 w eq_refl)
      as (evs & Hw & Hc & Hp & _ & H1).
    specialize (H1 ltac:(done)).
    destruct (proxyAttempts _ _ _ _ w) as [[v |] w1]; simpl in Hw; subst w1.
    + exists evs. cbn [snd length]. repeat split; try done; nia.
    + destruct (IH (logged w evs)) as (evs' & -> & Hc' & Hp' & H').
      exists (evs ++ evs'). rewrite logged_logged, fetchCount_app, pauseTotal_app.
      cbn [length]. repeat split; try done; nia.
Qed.

Lemma fetchWithRetry_budget (url : string) (retries : nat) (w : World) :
  exists evs,
    (fetchWithRetry url retries w).2 = logged w evs
    /\ (fetchCount evs <= 1 + 2 * S retries)%nat
    /\ 0 <= pauseTotal evs
    /\ pauseTotal evs <= 500 * Z.of_nat retries * (Z.of_nat retries + 1).
Proof.
  unfold fetchWithRetry, bind. rewrite fetch_eq.
  destruct (tryProxies_budget url retries PROXIES (logged w [EvFetch url (Some 5000)]))
    as (evs & Hw & Hc & Hp & H).
  assert (G : exists evs0,
             (tryProxies PROXIES url retries (logged w [EvFetch url (Some 5000)])).2
             = logged w evs0
             /\ (fetchCount evs0 <= 1 + 2 * S retries)%nat
             /\ 0 <= pauseTotal evs0
             /\ pauseTotal evs0 <= 500 * Z.of_nat retries * (Z.of_nat retries + 1)).
  { exists (EvFetch url (Some 5000) :: evs). rewrite Hw, logged_logged.
    split; [reflexivity |].
    change (length PROXIES) with 2%nat in *.
    change (fetchCount (EvFetch url (Some 5000) :: evs)) with (S (fetchCount evs)).
    change (pauseTotal (EvFetch url (Some 5000) :: evs)) with (pauseTotal evs).
    repeat split; lia || nia. }
  destruct (net w url _) as [| [] []]; try exact G.
  exists [EvFetch url (Some 5000)]. cbn. repeat split; try done; lia || nia.
Qed.

(** X2.  A call of [fetchWithRetry] makes at most
    [1 + 2 * (retries + 1)] requests (7 by default) and pauses for at most
    [500 * retries * (retries + 1)] ms in all (3 s by default), whatever
    the network answers. *)
Theorem fetchWithRetry_bounded (url : string) (retries : nat) (w : World) :
  exists evs,
    (fetchWithRetry url retries w).2 = logged w evs
    /\ (fetchCount evs <= 1 + 2 * (retries + 1))%nat
    /\ 0 <= pauseTotal evs <= 500 * Z.of_nat retries * (Z.of_nat retries + 1).
Proof.
  destruct (fetchWithRetry_budget url retries w) as (evs & Hw & Hc & Hp & H).
  exists evs. repeat split; try done; lia.
Qed.

Lemma requests_to_fetch (url : string) (timeout : option Z) (ms : Z) :
  requests_to url [EvFetch url timeout; EvSleep ms] = 1%nat.
Proof.
  unfold requests_to. cbn [List.filter is_fetch_of].
  by rewrite bool_decide_eq_true_2.
Qed.

(** After [j] failed attempts, each followed by its pause, the relay
    answers and its JSON is returned. *)
Lemma proxyAttempts_recovers (proxyUrl : string) (retries : nat) (v : JSValue) :
  forall j remaining i w,
    (j < remaining)%nat ->
    (i + remaining = S retries)%nat ->
    (forall k, (k < j)%nat ->
       net w proxyUrl (requests_to proxyUrl (log w) + k) = NetworkError) ->
    net w proxyUrl (requests_to proxyUrl (log w) + j) = Response true (Json v) ->
    proxyAttempts proxyUrl retries remaining i w
    = (Some v,
       logged w (concat (List.map (fun a => [EvFetch proxyUrl (Some 8000);
                                             EvSleep (500 * (Z.of_nat a + 1))])
                                  (seq i j))
                 ++ [EvFetch proxyUrl (Some 8000)])).
Proof.
  induction j as [| j IH]; intros remaining i w Hj Hi Hfail Hok;
    (destruct remaining as [| remaining]; [lia |]); rewrite proxyAttempts_step.
  - rewrite Nat.add_0_r in Hok. by rewrite Hok.
  - rewrite <- (Nat.add_0_r (requests_to proxyUrl (log w))), (Hfail 0%nat) by lia.
    rewrite bool_decide_eq_false_2 by lia.
    rewrite (IH remaining (S i)); [by rewrite logged_logged | lia | lia | |].
    + intros k Hk. cbn [net log logged].
      rewrite requests_to_app, requests_to_fetch.
      rewrite <- (Hfail (S k)) by lia. f_equal. lia.
    + cbn [net log logged].
      rewrite requests_to_app, requests_to_fetch.
      rewrite <- Hok. f_equal. lia.
Qed.

(** X3.  Retrying pays off: when a relay fails [j <= retries] times with a
    network error and then answers 2xx with JSON, [tryProxy] returns that
    JSON, after [j] pauses of 500, 1000, ... ms. *)
Theorem relay_recovers_from_transient_failures (proxyUrl : string)
    (retries j : nat) (v : JSValue) (w : World) :
  (j <= retries)%nat ->
  (forall k, (k < j)%nat ->
     net w proxyUrl (requests_to proxyUrl (log w) + k) = NetworkError) ->
  net w proxyUrl (requests_to proxyUrl (log w) + j) = Response true (Json v) ->
  tryProxy proxyUrl retries w
  = (Some v,
     logged w (concat (List.map (fun a => [EvFetch proxyUrl (Some 8000);
                                           EvSleep (500 * (Z.of_nat a + 1))])
                                (seq 0 j))
               ++ [EvFetch proxyUrl (Some 8000)])).
Proof.
  intros Hj Hfail Hok. unfold tryProxy.
  apply proxyAttempts_recovers; (lia || done).
Qed.

Lemma relay_recovers_from_transient_failures_witness :
  tryProxy "https://relay.example/" 2 flaky_relay_world
  = (Some (JArr [JNum (num 7)]),
     logged flaky_relay_world
       [EvFetch "https://relay.example/" (Some 8000); EvSleep 500;
        EvFetch "https://relay.example/" (Some 8000)]).
Proof.
  apply (relay_recovers_from_transient_failures "https://relay.example/" 2 1).
  - lia.
  - intros k Hk. assert (k = 0%nat) as -> by lia. reflexivity.
  - reflexivity.
Defined.

(** ** fetchAllNTPCData: the ceiling and the cost *)

Lemma collected_nil_inv (baseUrl : string) (ts : Z) page w w1 :
  collected baseUrl ts page w [] w1 -> w1 = w.
Proof. by inversion 1. Qed.

(** When pages keep coming up to page 15, everything gathered is returned. *)
Lemma fetchPages_ceiling (baseUrl : string) (ts : Z) page w pages w1 :
  collected baseUrl ts page w pages w1 ->
  pages <> [] ->
  (page + length pages = 16)%nat ->
  forall allData,
    fetchPages baseUrl ts page allData w = (allData ++ concat pages, w1).
Proof.
  induction 1 as [page w | page w data w' pages w'' Hfetch Hlast Hrest IH];
    intros Hne Hlen allData; [done |].
  simpl in Hlen. rewrite fetchPages_eq, Hfetch, Hlast.
  destruct pages as [| next pages].
  - apply collected_nil_inv in Hrest as ->.
    destruct (decide (15 < S page)%nat); [| simpl in *; lia].
    simpl. by rewrite app_nil_r.
  - destruct (decide (15 < S page)%nat); [simpl in *; lia |].
    rewrite IH by (done || lia).
    by rewrite <- app_assoc.
Qed.

(** X4.  When all of the pages 0 to 15 are non-empty arrays, the paginator
    returns the records of all 16 of them, those of page 15 included, and
    leaves the world as the fetch of page 15 left it. *)
Theorem paginator_returns_all_16_pages (baseUrl : string) (w : World)
    (pages : list (list JSValue)) (w1 : World) :
  collected baseUrl (now w) 0 w pages w1 ->
  length pages = 16%nat ->
  fetchAllNTPCData baseUrl w = (concat pages, w1).
Proof.
  intros Hpages Hlen. rewrite fetchAllNTPCData_eq.
  rewrite (fetchPages_ceiling _ _ _ _ _ _ Hpages); [reflexivity | | exact Hlen].
  intros ->. discriminate.
Qed.

Lemma paginator_returns_all_16_pages_witness :
  (fetchAllNTPCData NTPC_AVAIL_BASE_URL endless_world).1 = repeat JNull 16.
Proof.
  assert (H : exists w1, collected NTPC_AVAIL_BASE_URL (now endless_world) 0
                endless_world (repeat [JNull] 16) w1).
  { eexists. cbn [repeat].
    repeat (eapply (collected_page _ _ _ _ (JArr [JNull]));
            [vm_compute; reflexivity | reflexivity |]).
    apply collected_none. }
  destruct H as (w1 & Hpages).
  rewrite (paginator_returns_all_16_pages _ _ _ _ Hpages eq_refl).
  reflexivity.
Defined.

Lemma fetchPages_budget (baseUrl : string) (ts : Z) :
  forall n page allData w,
    (page + S n = 16)%nat ->
    exists evs,
      (fetchPages baseUrl ts page allData w).2 = logged w evs
      /\ (fetchCount evs <= 7 * S n)%nat
      /\ 0 <= pauseTotal evs <= 3000 * Z.of_nat (S n).
Proof.
  induction n as [| n IH]; intros page allData w Hpage;
    rewrite fetchPages_eq;
    destruct (fetchWithRetry_budget (pageUrl baseUrl page ts) 2 w)
      as (evs & Hw & Hc & Hp & Hq);
    change (500 * Z.of_nat 2 * (Z.of_nat 2 + 1)) with 3000 in Hq;
    change (1 + 2 * 3)%nat with 7%nat in Hc;
    destruct (fetchWithRetry _ 2 w) as [[data | e] w']; simpl in Hw; subst w';
    try destruct (lastPage data);
    try destruct (decide (15 < S page)%nat);
    try (exists evs; split; [reflexivity | lia]);
    try lia.
  destruct (IH (S page) (allData ++ array_items data) (logged w evs))
    as (evs' & -> & Hc' & Hp'); [lia |].
  exists (evs ++ evs'). rewrite logged_logged, fetchCount_app, pauseTotal_app.
  split; [reflexivity | lia].
Qed.

(** X5.  Whatever the network answers, draining one dataset costs at most
    112 requests (16 pages of at most 7) and at most 48 s of pauses. *)
Theorem paginator_total_cost (baseUrl : string) (w : World) :
  exists evs,
    (fetchAllNTPCData baseUrl w).2 = logged w evs
    /\ (fetchCount evs <= 112)%nat
    /\ 0 <= pauseTotal evs <= 48000.
Proof.
  rewrite fetchAllNTPCData_eq.
  destruct (fetchPages_budget baseUrl (now w) 15 0 [] w eq_refl) as (evs & Hw & Hc & Hp).
  exists evs. split; [exact Hw | lia].
Qed.

(** ** Availability is matched by identifier, and the last entry wins *)

(** X6.  New Taipei matches availability to a description by identifier:
    a description whose identifier no entry carries gets -9, and when
    several entries carry it the last one decides.  (The hypotheses say
    that no conversion threw.) *)
Theorem ntpc_availability_matching p4 (t : Z) (desc : JSValue)
    (availArray : list JSValue) (availMap : JSMap) (r : ParkingLotData) :
  ntpcAvailMap availArray = Some availMap ->
  ntpcRecord p4 t availMap desc = Some r ->
  (Forall (fun p => ntpcMatches p (getProp desc "ID") = false) availArray ->
   availablecar r = JNum (num (-9)))
  /\ (forall l1 p l2,
        availArray = l1 ++ p :: l2 ->
        ntpcMatches p (getProp desc "ID") = true ->
        Forall (fun q => ntpcMatches q (getProp desc "ID") = false) l2 ->
        ntpcStored p = Some (availablecar r)).
Proof.
  intros Hm (x & y & total & _ & _ & _ & ->)%ntpcRecord_Some. cbn [availablecar].
  destruct (ntpcAvailMap_lookup (getProp desc "ID") _ _ Hm) as [Hnone Hlast].
  split.
  - intros H. by rewrite (Hnone H).
  - intros l1 p l2 Hl Hp Hl2. specialize (Hlast l1 p l2 Hl Hp Hl2).
    rewrite Hlast. f_equal. unfold ntpcStored in Hlast.
    destruct (parseInt (getProp p "AVAILABLECAR"));
      cbn [mbind option_bind] in Hlast; [| discriminate].
    by injection Hlast as <-.
Qed.

Lemma ntpc_availability_matching_witness :
  option_map availablecar
    (availMap ← ntpcAvailMap
                  [JObj {[ "ID" := JStr "A1"; "AVAILABLECAR" := JStr "3" ]};
                   JObj {[ "id" := JStr "A1"; "availablecar" := JStr "12" ]};
                   JObj {[ "ID" := JStr "Z9"; "AVAILABLECAR" := JStr "8" ]}];
     ntpcRecord p4_taipei 0 availMap ntpc_desc_A1)
  = Some (JNum (num 12)).
Proof.
  transitivity (ntpcStored (JObj {[ "id" := JStr "A1"; "availablecar" := JStr "12" ]}));
    [| vm_compute; reflexivity].
  destruct (ntpcAvailMap _) as [availMap |] eqn:Em; [| vm_compute in Em; discriminate].
  cbn [mbind option_bind].
  destruct (ntpcRecord p4_taipei 0 availMap ntpc_desc_A1) as [r |] eqn:Er.
  - symmetry.
    apply (proj2 (ntpc_availability_matching p4_taipei 0 ntpc_desc_A1 _ _ _ Em Er)
             [JObj {[ "ID" := JStr "A1"; "AVAILABLECAR" := JStr "3" ]}]
             (JObj {[ "id" := JStr "A1"; "availablecar" := JStr "12" ]})
             [JObj {[ "ID" := JStr "Z9"; "AVAILABLECAR" := JStr "8" ]}]).
    + reflexivity.
    + vm_compute. reflexivity.
    + repeat constructor.
  - vm_compute in Em. injection Em as <-. vm_compute in Er. discriminate.
Defined.

(** X7.  Taipei matches availability to a description by identifier too:
    without an entry for its identifier a lot gets -9; otherwise the last
    entry decides, whose value is kept as it is unless it is [null] or
    [undefined]. *)
Theorem taipei_availability_matching p4 (t : Z) (avails : list JSValue)
    (availMap : JSMap) (desc : JSValue) (r : ParkingLotData) :
  taipeiAvailMap avails [] = Some availMap ->
  taipeiRecord p4 t availMap desc = Some r ->
  (Forall (fun p => same_value_zero (get p "id") (get desc "id") = false) avails ->
   availablecar r = JNum (num (-9)))
  /\ (forall l1 p l2,
        avails = l1 ++ p :: l2 ->
        same_value_zero (get p "id") (get desc "id") = true ->
        Forall (fun q => same_value_zero (get q "id") (get desc "id") = false) l2 ->
        availablecar r = nullish (get p "availablecar") (JNum (num (-9)))).
Proof.
  intros Hm Hr. apply taipeiRecord_inv in Hr as (x & y & _ & _ & _ & _ & _ & ->).
  destruct (taipeiAvailMap_lookup (get desc "id") _ _ Hm) as [Hnone Hlast].
  split.
  - intros H. by rewrite (Hnone H).
  - intros l1 p l2 Hl Hp Hl2. by rewrite (Hlast l1 p l2 Hl Hp Hl2).
Qed.

Lemma taipei_availability_matching_witness :
  availablecar sample_P1 = JNum (num 42).
Proof.
  transitivity (nullish (get tpc_avail_P1 "availablecar") (JNum (num (-9))));
    [| vm_compute; reflexivity].
  apply (proj2 (taipei_availability_matching p4_taipei 1700000000000
                  [tpc_avail_P1] [(JStr "P1", JNum (num 42))] tpc_desc_P1 sample_P1
                  ltac:(vm_compute; reflexivity) ltac:(vm_compute; reflexivity))
           [] tpc_avail_P1 []).
  - reflexivity.
  - vm_compute. reflexivity.
  - constructor.
Defined.

(** ** What the availability data can do to the lots of New Taipei *)

(** Whether a record is built, and all of it but [availablecar], does not
    depend on the map. *)
Lemma ntpcRecord_fields p4 t availMap availMap' desc r :
  ntpcRecord p4 t availMap desc = Some r ->
  exists r',
    ntpcRecord p4 t availMap' desc = Some r'
    /\ (id r = id r' /\ name r = name r' /\ address r = address r'
        /\ payex r = payex r' /\ totalcar r = totalcar r'
        /\ lat r = lat r' /\ lng r = lng r')
    /\ ntpcKeep r = ntpcKeep r'.
Proof.
  intros (x & y & total & Hx & Hy & Ht & ->)%ntpcRecord_Some.
  eexists. split.
  - apply ntpcRecord_Some. exists x, y, total. by repeat split.
  - by repeat split.
Qed.

Lemma mapM_related {A B : Type} (f g : A -> option B) (R : B -> B -> Prop)
    (l : list A) (k : list B) :
  mapM f l = Some k ->
  (forall x y, f x = Some y -> exists y', g x = Some y' /\ R y y') ->
  exists k', mapM g l = Some k' /\ Forall2 R k k'.
Proof.
  intros H%mapM_Some_1 Hfg.
  induction H as [| x y l k Hxy _ (k' & Hk' & HR)].
  - exists []. by split; [| constructor].
  - destruct (Hfg _ _ Hxy) as (y' & Hy' & Ry).
    exists (y' :: k'). split; [| by constructor].
    simpl. rewrite Hy'. cbn [mbind option_bind]. fold (mapM g l).
    by rewrite Hk'.
Qed.

Lemma filter_Forall2 {B : Type} (keep : B -> bool) (R : B -> B -> Prop)
    (k k' : list B) :
  Forall2 (fun y y' => R y y' /\ keep y = keep y') k k' ->
  Forall2 R (List.filter keep k) (List.filter keep k').
Proof.
  induction 1 as [| y y' k k' [HR Hkeep] _ IH]; simpl; [constructor |].
  rewrite Hkeep. destruct (keep y'); [by constructor | exact IH].
Qed.

Lemma ntpcAvailLoop_None (l : list JSValue) :
  forall availMap,
    ntpcAvailLoop l availMap = None
    <-> exists p, In p l /\ parseInt (getProp p "AVAILABLECAR") = None.
Proof.
  induction l as [| p l IH]; intros availMap; simpl.
  - split; [discriminate | by intros (p & [] & _)].
  - unfold ntpcAvailStep at 1.
    destruct (parseInt (getProp p "AVAILABLECAR")) as [count |] eqn:Ec;
      cbn [mbind option_bind].
    + rewrite IH. split.
      * intros (q & Hq & E). exists q. auto.
      * intros (q & [<- | Hq] & E); [congruence | eauto].
    + split; [| done]. intros _. exists p. auto.
Qed.

Lemma ntpcRecord_availablecar p4 t desc r :
  ntpcRecord p4 t [] desc = Some r -> availablecar r = JNum (num (-9)).
Proof. by intros (x & y & total & _ & _ & _ & ->)%ntpcRecord_Some. Qed.

(** X8.  The availability data of New Taipei decide what is emitted in one
    way only: an entry whose count cannot be converted to a string (an
    object with a [toString] property of its own) makes the normalization
    throw, and every lot is lost.  Otherwise they decide nothing but
    [availablecar]: the normalization ends normally exactly when it does
    with no availability at all, with any two availability lists the same
    lots come out, in the same order, differing at most in [availablecar],
    and with no availability every lot comes out with -9. *)
Theorem ntpc_availability_never_drops_a_lot p4 (t : Z)
    (descArray availArray : list JSValue) :
  (ntpcAvailMap availArray = None
   <-> exists p, In p availArray /\ parseInt (getProp p "AVAILABLECAR") = None)
  /\ (ntpcAvailMap availArray = None ->
      normalizeNewTaipei p4 t descArray availArray = None)
  /\ (is_Some (ntpcAvailMap availArray) ->
      forall out0,
        normalizeNewTaipei p4 t descArray [] = Some out0 ->
        exists out,
          normalizeNewTaipei p4 t descArray availArray = Some out
          /\ length out = length out0)
  /\ (forall availArray' out out',
        normalizeNewTaipei p4 t descArray availArray = Some out ->
        normalizeNewTaipei p4 t descArray availArray' = Some out' ->
        Forall2 (fun r r' => id r = id r' /\ name r = name r'
                             /\ address r = address r' /\ payex r = payex r'
                             /\ totalcar r = totalcar r'
                             /\ lat r = lat r' /\ lng r = lng r')
                out out')
  /\ (forall out0,
        normalizeNewTaipei p4 t descArray [] = Some out0 ->
        Forall (fun r => availablecar r = JNum (num (-9))) out0).
Proof.
  assert (Hpair : forall availArray1 availArray2 availMap2 out1,
             normalizeNewTaipei p4 t descArray availArray1 = Some out1 ->
             ntpcAvailMap availArray2 = Some availMap2 ->
             exists out2,
               normalizeNewTaipei p4 t descArray availArray2 = Some out2
               /\ Forall2 (fun r r' => id r = id r' /\ name r = name r'
                                       /\ address r = address r'
                                       /\ payex r = payex r'
                                       /\ totalcar r = totalcar r'
                                       /\ lat r = lat r' /\ lng r = lng r')
                          out1 out2).
  { intros availArray1 availArray2 availMap2 out1
           (availMap1 & records1 & Hm1 & Hr1 & ->)%normalizeNewTaipei_Some Hm2.
    destruct (mapM_related (ntpcRecord p4 t availMap1) (ntpcRecord p4 t availMap2)
                _ descArray records1 Hr1
                (fun desc r => ntpcRecord_fields p4 t availMap1 availMap2 desc r))
      as (records2 & Hr2 & HR).
    exists (List.filter ntpcKeep records2). split.
    - apply normalizeNewTaipei_Some. by exists availMap2, records2.
    - by apply filter_Forall2. }
  split; [apply ntpcAvailLoop_None |]. split; [| split; [| split]].
  - intros E. unfold normalizeNewTaipei. by rewrite E.
  - intros [availMap Hm] out0 H0.
    destruct (Hpair [] availArray availMap out0 H0 Hm) as (out & Hout & HR).
    exists out. split; [exact Hout |]. symmetry. by eapply Forall2_length.
  - intros availArray' out out' Hout Hout'.
    assert (Hm' : is_Some (ntpcAvailMap availArray')).
    { apply normalizeNewTaipei_Some in Hout' as (availMap' & ? & -> & _). eauto. }
    destruct Hm' as [availMap' Hm'].
    destruct (Hpair availArray availArray' availMap' out Hout Hm')
      as (out2 & Hout2 & HR).
    rewrite Hout' in Hout2. by injection Hout2 as <-.
  - intros out0 (availMap & records & Hm & Hr & ->)%normalizeNewTaipei_Some.
    injection Hm as <-.
    apply List.Forall_forall. intros r [Hin _]%filter_In.
    destruct (mapM_In _ _ _ _ Hr Hin) as (desc & _ & Hrec).
    by eapply ntpcRecord_availablecar.
Qed.

Lemma ntpc_availability_never_drops_a_lot_witness :
  normalizeNewTaipei p4_taipei 0 [ntpc_desc_A1]
    [JObj {[ "ID" := JStr "Z9";
             "AVAILABLECAR" := JObj {[ "toString" := JNum (num 1) ]} ]}]
  = None.
Proof.
  destruct (ntpc_availability_never_drops_a_lot p4_taipei 0 [ntpc_desc_A1]
              [JObj {[ "ID" := JStr "Z9";
                       "AVAILABLECAR" := JObj {[ "toString" := JNum (num 1) ]} ]}])
    as (Hthrows & Hlost & _).
  apply Hlost, Hthrows. eexists. split; [by left |]. vm_compute. reflexivity.
Defined.

(** One entry of the availability list that throws, for a lot that is not
    even described, and New Taipei contributes nothing. *)
Example poisoned_availability_loses_every_lot :
  (fetchNewTaipeiData p4_taipei poisoned_availability_world).1 = []
  /\ (fetchNewTaipeiData p4_taipei no_availability_world).1
     = [{| spread := None; id := JStr "A1"; name := JStr "Lot A1";
           address := JUndefined; payex := JUndefined;
           totalcar := JNum (num (-5)); availablecar := JNum (num (-9));
           lat := num 25; lng := Finite 243 (-1);
           lastUpdated := 1700000000000; source := NTPC |}].
Proof. split; vm_compute; reflexivity. Qed.

(** ** One bad description *)

Lemma mapM_app_Some {A B : Type} (f : A -> option B) (l1 l2 : list A) :
  mapM f (l1 ++ l2)
  = k1 ← mapM f l1; k2 ← mapM f l2; Some (k1 ++ k2).
Proof.
  induction l1 as [| x l1 IH]; simpl.
  - fold (mapM f l2). by destruct (mapM f l2).
  - destruct (f x) as [y |]; cbn [mbind option_bind]; [| reflexivity].
    fold (mapM f (l1 ++ l2)). fold (mapM f l1). rewrite IH.
    destruct (mapM f l1) as [k1 |]; cbn [mbind option_bind]; [| reflexivity].
    by destruct (mapM f l2).
Qed.

Lemma getProp_falsy (obj : JSValue) (key : string) :
  truthy obj = false -> getProp obj key = JUndefined.
Proof. unfold getProp. by intros ->. Qed.

Lemma ntpcRecord_falsy p4 t availMap desc :
  truthy desc = false -> is_Some (ntpcRecord p4 t availMap desc).
Proof.
  intros H. unfold ntpcRecord. rewrite !getProp_falsy by exact H.
  change (parseFloat JUndefined) with (Some NaN).
  change (parseInt JUndefined) with (Some NaN).
  cbn [mbind option_bind]. destruct (convertTWD97ToWGS84 _ _ _). eauto.
Qed.

(** X9.  New Taipei normalizes its descriptions one by one and keeps their
    order.  An entry that is [null] (or otherwise falsy), or one that has
    no truthy identifier under [ID], [id] and whose coordinates and
    capacity convert without throwing, produces no record and leaves the
    records of the other entries as they are; at most one record comes out
    per description.  An entry whose conversion throws makes the whole
    normalization throw, whatever the other entries are. *)
Theorem ntpc_bad_description_is_dropped_alone p4 (t : Z)
    (l1 l2 availArray : list JSValue) (desc : JSValue) :
  (truthy desc = false
   \/ (truthy (getProp desc "ID") = false /\ is_Some (ntpcRecord p4 t [] desc)) ->
   normalizeNewTaipei p4 t (l1 ++ desc :: l2) availArray
   = normalizeNewTaipei p4 t (l1 ++ l2) availArray
   /\ forall out,
        normalizeNewTaipei p4 t (l1 ++ desc :: l2) availArray = Some out ->
        (length out <= length l1 + length l2)%nat)
  /\ (ntpcRecord p4 t [] desc = None ->
      normalizeNewTaipei p4 t (l1 ++ desc :: l2) availArray = None).
Proof.
  assert (Hstep : forall availMap,
             mapM (ntpcRecord p4 t availMap) (l1 ++ desc :: l2)
             = k1 ← mapM (ntpcRecord p4 t availMap) l1;
               r ← ntpcRecord p4 t availMap desc;
               k2 ← mapM (ntpcRecord p4 t availMap) l2;
               Some (k1 ++ r :: k2)).
  { intros availMap. rewrite mapM_app_Some. simpl.
    fold (mapM (ntpcRecord p4 t availMap) l2).
    destruct (mapM _ l1) as [k1 |]; cbn [mbind option_bind]; [| reflexivity].
    destruct (ntpcRecord p4 t availMap desc) as [r |];
      cbn [mbind option_bind]; [| reflexivity].
    by destruct (mapM _ l2). }
  split.
  - intros H.
    assert (Hid : truthy (getProp desc "ID") = false).
    { destruct H as [H | [H _]]; [by rewrite getProp_falsy | exact H]. }
    assert (Hsome : is_Some (ntpcRecord p4 t [] desc)).
    { destruct H as [H | [_ H]]; [by apply ntpcRecord_falsy | exact H]. }
    assert (E : normalizeNewTaipei p4 t (l1 ++ desc :: l2) availArray
                = normalizeNewTaipei p4 t (l1 ++ l2) availArray).
    { unfold normalizeNewTaipei.
      destruct (ntpcAvailMap availArray) as [availMap |];
        cbn [mbind option_bind]; [| reflexivity].
      rewrite Hstep, mapM_app_Some.
      destruct Hsome as [r0 Hr0].
      destruct (ntpcRecord_fields p4 t [] availMap desc r0 Hr0)
        as (r & -> & _ & Hkeep).
      assert (Hdrop : ntpcKeep r = false).
      { rewrite <- Hkeep.
        apply ntpcRecord_Some in Hr0 as (? & ? & ? & _ & _ & _ & ->).
        unfold ntpcKeep. cbn [id]. by rewrite Hid, andb_false_r. }
      destruct (mapM _ l1) as [k1 |]; cbn [mbind option_bind]; [| reflexivity].
      destruct (mapM _ l2) as [k2 |]; cbn [mbind option_bind]; [| reflexivity].
      rewrite !List.filter_app. cbn [List.filter]. by rewrite Hdrop. }
    split; [exact E |].
    intros out Hout. rewrite E in Hout.
    apply normalizeNewTaipei_Some in Hout as (availMap & records & _ & Hr & ->).
    apply mapM_Some_1, Forall2_length in Hr. rewrite length_app in Hr.
    etransitivity; [apply List.filter_length_le |]. lia.
  - intros Hnone. unfold normalizeNewTaipei.
    destruct (ntpcAvailMap availArray) as [availMap |];
      cbn [mbind option_bind]; [| reflexivity].
    rewrite Hstep.
    destruct (ntpcRecord p4 t availMap desc) as [r |] eqn:Er.
    + destruct (ntpcRecord_fields p4 t availMap [] desc r Er) as (r' & Hr' & _).
      congruence.
    + by destruct (mapM _ l1).
Qed.

Lemma ntpc_bad_description_is_dropped_alone_witness :
  normalizeNewTaipei p4_taipei 1700000000000
    ([ntpc_desc_A1] ++ JNull :: []) [ntpc_avail_A1]
  = Some [sample_A1].
Proof.
  rewrite (proj1 (proj1 (ntpc_bad_description_is_dropped_alone p4_taipei 1700000000000
                           [ntpc_desc_A1] [] [ntpc_avail_A1] JNull)
                    ltac:(by left))).
  vm_compute. reflexivity.
Defined.

(** A description without identifier whose easting is an object with a
    [toString] property loses the lots of the other descriptions too. *)
Example throwing_description_loses_every_lot :
  normalizeNewTaipei p4_taipei 1700000000000
    [ntpc_desc_A1; JObj {[ "TW97X" := JObj {[ "toString" := JNum (num 1) ]} ]}]
    [ntpc_avail_A1]
  = None.
Proof. vm_compute. reflexivity. Qed.

(** ** Taipei is all or nothing *)

Lemma parkList_Some (json : JSValue) (l : list JSValue) :
  parkList json = Some l ->
  exists data, prop json "data" = Some data /\ prop data "park" = Some (JArr l).
Proof.
  unfold parkList. intros H.
  destruct (prop json "data") as [data |]; cbn [mbind option_bind] in H; [| discriminate].
  destruct (prop data "park") as [park |] eqn:Ep;
    cbn [mbind option_bind] in H; [| discriminate].
  destruct park; simpl in H; try discriminate. injection H as ->. eauto.
Qed.

Lemma taipeiAvailMap_null (l : list JSValue) :
  In JNull l -> forall availMap, taipeiAvailMap l availMap = None.
Proof.
  induction l as [| p l IH]; intros Hin availMap; [destruct Hin |].
  destruct Hin as [-> | Hin]; [reflexivity |]. simpl.
  destruct (prop p "id"); cbn [mbind option_bind]; [| reflexivity].
  destruct (prop p "availablecar"); cbn [mbind option_bind]; [| reflexivity].
  by apply IH.
Qed.

Lemma taipeiRecords_null p4 t availMap (l : list JSValue) :
  In JNull l -> mapM (taipeiRecord p4 t availMap) l = None.
Proof.
  intros Hin. destruct (mapM _ l) as [records |] eqn:E; [| reflexivity].
  destruct (mapM_In_l _ _ _ _ E Hin) as (r & _ & Hr). discriminate.
Qed.

(** X10.  Taipei is all or nothing: when [data.park] is missing or is not
    an array in either document, or when either list holds a [null], the
    normalization throws, and the [catch] leaves Taipei with no record at
    all, the well-formed entries included. *)
Theorem taipei_is_all_or_nothing p4 (t : Z) (descJson availJson : JSValue) :
  (parkList descJson = None \/ parkList availJson = None ->
   normalizeTaipei p4 t descJson availJson = None)
  /\ (forall descs avails,
        parkList descJson = Some descs ->
        parkList availJson = Some avails ->
        In JNull (descs ++ avails) ->
        normalizeTaipei p4 t descJson availJson = None).
Proof.
  split.
  - unfold parkList, normalizeTaipei. intros H.
    destruct (prop descJson "data") as [descData |];
      cbn [mbind option_bind] in *; [| reflexivity].
    destruct (prop descData "park") as [parksDesc |];
      cbn [mbind option_bind] in *; [| reflexivity].
    destruct (prop availJson "data") as [availData |];
      cbn [mbind option_bind] in *; [| reflexivity].
    destruct (prop availData "park") as [parksAvail |];
      cbn [mbind option_bind] in *; [| reflexivity].
    destruct (as_array parksAvail) as [avails |];
      cbn [mbind option_bind] in *; [| reflexivity].
    destruct (taipeiAvailMap avails []) as [availMap |];
      cbn [mbind option_bind] in *; [| reflexivity].
    destruct (as_array parksDesc) as [descs |];
      cbn [mbind option_bind] in *; [| reflexivity].
    destruct H; discriminate.
  - intros descs avails Hd Ha Hin.
    apply parkList_Some in Hd as (descData & Hd1 & Hd2).
    apply parkList_Some in Ha as (availData & Ha1 & Ha2).
    unfold normalizeTaipei. rewrite Hd1. cbn [mbind option_bind].
    rewrite Hd2. cbn [mbind option_bind]. rewrite Ha1. cbn [mbind option_bind].
    rewrite Ha2. cbn [mbind option_bind as_array].
    apply in_app_or in Hin as [Hin | Hin].
    + destruct (taipeiAvailMap avails []) as [availMap |];
        cbn [mbind option_bind]; [| reflexivity].
      by rewrite taipeiRecords_null.
    + by rewrite taipeiAvailMap_null.
Qed.

Lemma taipei_is_all_or_nothing_witness :
  normalizeTaipei p4_taipei 0 (tpc_document [tpc_desc_P1; JNull])
    (tpc_document [tpc_avail_P1]) = None.
Proof.
  apply (proj2 (taipei_is_all_or_nothing p4_taipei 0 _ _)
           [tpc_desc_P1; JNull] [tpc_avail_P1]).
  - vm_compute. reflexivity.
  - vm_compute. reflexivity.
  - right. by left.
Defined.

(** ** Tags and order of the merged list *)

Lemma taipeiRecord_tags p4 t availMap desc r :
  taipeiRecord p4 t availMap desc = Some r ->
  source r = TPC /\ spread r = Some desc.
Proof.
  unfold taipeiRecord. intros H.
  destruct (prop desc "tw97x"); cbn [mbind option_bind] in H; [| discriminate].
  destruct (parseFloat _); cbn [mbind option_bind] in H; [| discriminate].
  destruct (prop desc "tw97y"); cbn [mbind option_bind] in H; [| discriminate].
  destruct (parseFloat _); cbn [mbind option_bind] in H; [| discriminate].
  destruct (convertTWD97ToWGS84 _ _ _). by injection H as <-.
Qed.

Lemma ntpcRecord_tags p4 t availMap desc r :
  ntpcRecord p4 t availMap desc = Some r ->
  source r = NTPC /\ spread r = None.
Proof. by intros (x & y & total & _ & _ & _ & ->)%ntpcRecord_Some. Qed.

Lemma fetchPages_world (baseUrl : string) (ts : Z) (w : World) :
  exists evs, (fetchPages baseUrl ts 0 [] w).2 = logged w evs.
Proof.
  destruct (fetchPages_budget baseUrl ts 15 0 [] w eq_refl) as (evs & Hw & _).
  eauto.
Qed.

(** [fetchNewTaipeiData] in one equation: the two datasets are gathered
    with the time read at the start, and normalized with the time read at
    the end. *)
Lemma fetchNewTaipeiData_eq p4 (w : World) :
  let descRun := fetchPages NTPC_DESC_BASE_URL (now w) 0 [] w in
  let availRun := fetchPages NTPC_AVAIL_BASE_URL (now w) 0 [] descRun.2 in
  fetchNewTaipeiData p4 w
  = (default [] (normalizeNewTaipei p4 (now availRun.2) descRun.1 availRun.1),
     availRun.2).
Proof.
  unfold fetchNewTaipeiData, bind, Date_now, ret.
  destruct (fetchPages NTPC_DESC_BASE_URL (now w) 0 [] w) as [descArray w1].
  cbn [fst snd].
  by destruct (fetchPages NTPC_AVAIL_BASE_URL (now w) 0 [] w1) as [availArray w2].
Qed.

Lemma fetchNewTaipeiData_world p4 (w : World) :
  exists evs, (fetchNewTaipeiData p4 w).2 = logged w evs.
Proof.
  rewrite fetchNewTaipeiData_eq. cbv zeta. cbn [snd].
  destruct (fetchPages_world NTPC_DESC_BASE_URL (now w) w) as (evs1 & ->).
  destruct (fetchPages_world NTPC_AVAIL_BASE_URL (now w) (logged w evs1))
    as (evs2 & ->).
  exists (evs1 ++ evs2). by rewrite logged_logged.
Qed.

Lemma fetchTaipeiData_tags p4 (w : World) :
  Forall (fun r => source r = TPC /\ spread r <> None) (fetchTaipeiData p4 w).1.
Proof.
  apply List.Forall_forall. intros r Hin.
  destruct (fetchTaipeiData_result p4 w) as [E | (t & descJson & availJson & E)].
  - rewrite E in Hin. destruct Hin.
  - destruct (normalizeTaipei_In _ _ _ _ _ _ E Hin)
      as (? & ? & ? & desc & _ & _ & _ & _ & Hrec & _).
    apply taipeiRecord_tags in Hrec as (H1 & H2).
    by rewrite H1, H2.
Qed.

Lemma fetchNewTaipeiData_tags p4 (w : World) :
  Forall (fun r => source r = NTPC /\ spread r = None) (fetchNewTaipeiData p4 w).1.
Proof.
  apply List.Forall_forall. intros r Hin.
  destruct (fetchNewTaipeiData_result p4 w) as [E | (t & descArray & availArray & E)].
  - rewrite E in Hin. destruct Hin.
  - destruct (normalizeNewTaipei_In _ _ _ _ _ _ E Hin)
      as (? & desc & _ & _ & Hrec & _).
    by eapply ntpcRecord_tags.
Qed.

(** X11.  Every record carries the tag of the source that produced it, a
    record of Taipei spreads its description and a record of New Taipei
    does not, and in the list that [fetchParkingData] returns the records
    of Taipei all come before those of New Taipei. *)
Theorem records_are_tagged_and_ordered p4 (w : World) (l : list ParkingLotData) :
  (fetchParkingData p4 w).1 = Ok l ->
  exists a b,
    l = a ++ b
    /\ a = (fetchTaipeiData p4 w).1
    /\ b = (fetchNewTaipeiData p4 (fetchTaipeiData p4 w).2).1
    /\ Forall (fun r => source r = TPC /\ spread r <> None) a
    /\ Forall (fun r => source r = NTPC /\ spread r = None) b.
Proof.
  rewrite fetchParkingData_eq. cbv zeta.
  destruct (length _ =? 0)%nat; [discriminate |]. intros [= <-].
  exists (fetchTaipeiData p4 w).1, (fetchNewTaipeiData p4 (fetchTaipeiData p4 w).2).1.
  do 3 (split; [reflexivity |]).
  split; [apply fetchTaipeiData_tags | apply fetchNewTaipeiData_tags].
Qed.

Lemma records_are_tagged_and_ordered_witness :
  exists a b, [sample_P1; sample_A1] = a ++ b
    /\ Forall (fun r => source r = TPC /\ spread r <> None) a
    /\ Forall (fun r => source r = NTPC /\ spread r = None) b.
Proof.
  destruct (records_are_tagged_and_ordered p4_taipei sample_world
              [sample_P1; sample_A1]) as (a & b & H1 & _ & _ & H2 & H3).
  - vm_compute. reflexivity.
  - by exists a, b.
Defined.

(** The stamps follow the clock: on a clock that moves, the records of
    Taipei are stamped after its two requests, and the refresh of the
    application later, after the requests and pauses of New Taipei. *)
Example stamps_follow_the_clock :
  List.map lastUpdated (fetchTaipeiData p4_taipei ticking_world).1
  = [1700000000200]
  /\ App.lastUpdated (App.loadData p4_taipei App.initial ticking_world).1
     = Some 1700000007600.
Proof. split; vm_compute; reflexivity. Qed.

(** ** The converter: zero inputs and failures of the projection *)

Lemma zero_falsy (x : number) : is_zero x = true -> number_truthy x = false.
Proof. unfold number_truthy. by intros ->. Qed.

(** X12.  [convertTWD97ToWGS84] returns (0, 0) when a coordinate is zero or
    when the projection throws, and otherwise the projected pair with
    latitude first; a New Taipei description in the first case produces no
    record. *)
Theorem converter_zero_and_failure p4 (x y : number) :
  (is_zero x = true \/ is_zero y = true \/ p4 x y = None ->
   convertTWD97ToWGS84 p4 x y = (num 0, num 0)
   /\ forall t availMap descArray availArray desc r,
        parseFloat (getProp desc "TW97X") = Some x ->
        parseFloat (getProp desc "TW97Y") = Some y ->
        ntpcRecord p4 t availMap desc = Some r ->
        ~ In r (default [] (normalizeNewTaipei p4 t descArray availArray)))
  /\ (forall lon lat,
        number_truthy x = true -> number_truthy y = true ->
        p4 x y = Some (lon, lat) ->
        convertTWD97ToWGS84 p4 x y = (lat, lon)).
Proof.
  split.
  - intros H.
    assert (Hc : convertTWD97ToWGS84 p4 x y = (num 0, num 0)).
    { destruct H as [H | [H | H]].
      - apply convert_falsy. left. by apply zero_falsy.
      - apply convert_falsy. right. by apply zero_falsy.
      - unfold convertTWD97ToWGS84. rewrite H. by destruct (_ || _). }
    split; [exact Hc |].
    intros t availMap descArray availArray desc r Hx Hy Hrec.
    apply ntpcRecord_coordinates in Hrec as (x' & y' & Hx' & Hy' & E).
    assert (x' = x) by congruence. assert (y' = y) by congruence. subst x' y'.
    rewrite Hc in E. injection E as E _.
    destruct (normalizeNewTaipei p4 t descArray availArray) as [out |] eqn:Eout;
      [| intros []].
    cbn. intros Hin.
    destruct (normalizeNewTaipei_In _ _ _ _ _ _ Eout Hin) as (? & ? & _ & _ & _ & Hk).
    apply ntpcKeep_inv in Hk as (Hlat & _).
    rewrite E in Hlat. discriminate.
  - intros lon lat Hx Hy Hp. unfold convertTWD97ToWGS84.
    by rewrite Hx, Hy, Hp.
Qed.

Lemma converter_zero_and_failure_witness :
  parseFloat (JStr "0") = Some (num 0)
  /\ convertTWD97ToWGS84 p4_taipei (num 0) (num 2770000) = (num 0, num 0)
  /\ convertTWD97ToWGS84 p4_taipei (num 300000) (num 2770000)
     = (num 25, Finite 243 (-1)).
Proof.
  split; [reflexivity |]. split.
  - apply (proj1 (converter_zero_and_failure p4_taipei (num 0) (num 2770000))).
    left. reflexivity.
  - apply (proj2 (converter_zero_and_failure p4_taipei (num 300000) (num 2770000)));
      reflexivity.
Defined.

(** ** ParkingMap: how an availability value is shown *)

Lemma mk_finite_negative (m e z : Z) :
  mk_finite m e = Finite z 0 -> z < 0 -> m < 0.
Proof.
  unfold mk_finite. destruct (m =? 0) eqn:E0; [intros [= <-]; lia |].
  apply Z.eqb_neq in E0.
  destruct (0 <=? e) eqn:Ee.
  - apply Z.leb_le in Ee. intros [= <-] Hz.
    assert (0 < 2 ^ e) by (by apply Z.pow_pos_nonneg). nia.
  - intros [= <- _] Hz.
    destruct (Z.lt_ge_cases m 0) as [Hm | Hm]; [exact Hm |].
    assert (0 <= m / Z.gcd m (2 ^ (- e))); [| lia].
    apply Z.div_pos; [exact Hm |].
    pose proof (Z.gcd_nonneg m (2 ^ (- e))).
    assert (Z.gcd m (2 ^ (- e)) <> 0); [| lia].
    intros Hg. apply Z.gcd_eq_0_l in Hg. lia.
Qed.

Lemma strict_eq_negative (x : number) (z : Z) :
  strict_eq x z = true -> z < 0 -> lt0 x = true.
Proof.
  unfold strict_eq. intros H%bool_decide_eq_true Hz.
  destruct x as [| negative | m e]; try discriminate.
  simpl in *. apply Z.ltb_lt. by eapply mk_finite_negative.
Qed.

Lemma lt0_not_gt0 (x : number) : lt0 x = true -> gt0 x = false.
Proof.
  destruct x as [| [] | m e]; simpl; try done.
  intros H%Z.ltb_lt. apply Z.ltb_ge. lia.
Qed.

(** X13.  A negative availability is never shown as a count of spaces: its
    text is one of the five fixed labels, and every negative value other
    than the four sentinels, such as the -5 the pipeline can emit, is
    shown as unknown, in gray.  A value that is not negative is shown as
    its decimal text followed by the unit. *)
Theorem availability_text_of_any_number (x : number) :
  (lt0 x = true ->
   In (getAvailabilityText x) availabilityLabels
   /\ (strict_eq x (-9) = false -> strict_eq x (-11) = false ->
       strict_eq x (-12) = false -> strict_eq x (-13) = false ->
       getAvailabilityText x = "資訊不明"
       /\ getAvailabilityClass x = "text-gray-600 font-bold"))
  /\ (lt0 x = false ->
      getAvailabilityText x = NumberToString x +:+ " 格").
Proof.
  unfold getAvailabilityText, getAvailabilityClass, availabilityLabels. split.
  - intros Hlt. split.
    + destruct (strict_eq x (-9)); [simpl; tauto |].
      destruct (strict_eq x (-11)); [simpl; tauto |].
      destruct (strict_eq x (-12)); [simpl; tauto |].
      destruct (strict_eq x (-13)); [simpl; tauto |].
      rewrite Hlt. simpl. tauto.
    + intros -> -> -> ->. by rewrite Hlt, (lt0_not_gt0 x Hlt).
  - intros Hlt.
    destruct (strict_eq x (-9)) eqn:E1;
      [apply strict_eq_negative in E1; [congruence | lia] |].
    destruct (strict_eq x (-11)) eqn:E2;
      [apply strict_eq_negative in E2; [congruence | lia] |].
    destruct (strict_eq x (-12)) eqn:E3;
      [apply strict_eq_negative in E3; [congruence | lia] |].
    destruct (strict_eq x (-13)) eqn:E4;
      [apply strict_eq_negative in E4; [congruence | lia] |].
    by rewrite Hlt.
Qed.

Lemma availability_text_of_any_number_witness :
  getAvailabilityText (num (-5)) = "資訊不明"
  /\ getAvailabilityText (num 42) = NumberToString (num 42) +:+ " 格".
Proof.
  split.
  - apply (proj1 (availability_text_of_any_number (num (-5))));
      reflexivity.
  - apply (proj2 (availability_text_of_any_number (num 42))). reflexivity.
Defined.

Example availability_texts :
  List.map getAvailabilityText [num (-9); num (-11); num 0; num 42; NaN]
  = ["無法提供"; "剩餘格位足夠"; "0 格"; "42 格"; "NaN 格"]%string.
Proof. vm_compute. reflexivity. Qed.

(** X14.  The count is styled blue exactly when the value is positive; a
    value that is neither negative nor positive (zero, or [NaN]) is shown
    as a count but styled gray, like an unknown one. *)
Theorem availability_class_of_any_number (x : number) :
  (getAvailabilityClass x = "text-blue-600 font-bold" <-> gt0 x = true)
  /\ (lt0 x = false -> gt0 x = false ->
      getAvailabilityClass x = "text-gray-600 font-bold"
      /\ getAvailabilityText x = NumberToString x +:+ " 格").
Proof.
  split.
  - unfold getAvailabilityClass. split.
    + destruct (strict_eq x (-9)); [discriminate |].
      destruct (strict_eq x (-11)); [discriminate |].
      destruct (strict_eq x (-12)); [discriminate |].
      destruct (strict_eq x (-13)); [discriminate |].
      by destruct (gt0 x).
    + intros Hgt.
      assert (Hs : forall z, z < 0 -> strict_eq x z = false).
      { intros z Hz. destruct (strict_eq x z) eqn:E; [| reflexivity].
        apply strict_eq_negative in E; [| exact Hz].
        apply lt0_not_gt0 in E. congruence. }
      by rewrite !Hs, Hgt by lia.
  - intros Hlt Hgt. split.
    + assert (Hs : forall z, z < 0 -> strict_eq x z = false).
      { intros z Hz. destruct (strict_eq x z) eqn:E; [| reflexivity].
        apply strict_eq_negative in E; [congruence | exact Hz]. }
      unfold getAvailabilityClass. by rewrite !Hs, Hgt by lia.
    + unfold getAvailabilityText.
      assert (Hs : forall z, z < 0 -> strict_eq x z = false).
      { intros z Hz. destruct (strict_eq x z) eqn:E; [| reflexivity].
        apply strict_eq_negative in E; [congruence | exact Hz]. }
      by rewrite !Hs, Hlt by lia.
Qed.

Lemma availability_class_of_any_number_witness :
  getAvailabilityClass (num 0) = "text-gray-600 font-bold"
  /\ getAvailabilityText (num 0) = NumberToString (num 0) +:+ " 格".
Proof.
  apply (proj2 (availability_class_of_any_number (num 0))); reflexivity.
Defined.

(** ** New Taipei without its availability dataset *)

(** X15.  When no request for the first availability page is answered,
    New Taipei still emits its lots, as long as no description throws:
    what it returns is what the normalization of the descriptions with no
    availability gives, or nothing when that throws, and each lot
    returned has [availablecar] -9. *)
Theorem ntpc_survives_availability_outage p4 (w : World) :
  (forall k, net w (pageUrl NTPC_AVAIL_BASE_URL 0 (now w)) k = NetworkError) ->
  (forall proxyFn k, In proxyFn PROXIES ->
     net w (proxyFn (pageUrl NTPC_AVAIL_BASE_URL 0 (now w))) k = NetworkError) ->
  let descArray := (fetchAllNTPCData NTPC_DESC_BASE_URL w).1 in
  let w' := (fetchNewTaipeiData p4 w).2 in
  (fetchNewTaipeiData p4 w).1
  = default [] (normalizeNewTaipei p4 (now w') descArray [])
  /\ (forall out,
        normalizeNewTaipei p4 (now w') descArray [] = Some out ->
        (fetchNewTaipeiData p4 w).1 = out)
  /\ Forall (fun r => availablecar r = JNum (num (-9))) (fetchNewTaipeiData p4 w).1.
Proof.
  intros Hd Hp descArray w'. unfold w', descArray.
  rewrite fetchAllNTPCData_eq, fetchNewTaipeiData_eq. cbv zeta. cbn [fst snd].
  destruct (fetchPages_world NTPC_DESC_BASE_URL (now w) w) as (evs1 & Hw1).
  assert (E : (fetchPages NTPC_AVAIL_BASE_URL (now w) 0 []
                 (fetchPages NTPC_DESC_BASE_URL (now w) 0 [] w).2).1 = []).
  { rewrite Hw1, fetchPages_eq.
    destruct (fetchWithRetry_dead (pageUrl NTPC_AVAIL_BASE_URL 0 (now w)) 2
                (logged w evs1) Hd Hp) as [e ->].
    reflexivity. }
  rewrite E.
  set (out := normalizeNewTaipei p4 _ _ []).
  split; [reflexivity |]. split; [by intros out' -> |].
  destruct out as [out' |] eqn:Eout; [| constructor]. cbn.
  apply List.Forall_forall. intros r Hin.
  destruct (normalizeNewTaipei_In _ _ _ _ _ _ Eout Hin)
    as (availMap & desc & [= <-] & _ & Hrec & _).
  by eapply ntpcRecord_availablecar.
Qed.

Lemma ntpc_survives_availability_outage_witness :
  List.map availablecar (fetchNewTaipeiData p4_taipei no_availability_world).1
  = [JNum (num (-9))].
Proof.
  rewrite (proj1 (ntpc_survives_availability_outage p4_taipei no_availability_world
                    ltac:(intros k; reflexivity)
                    ltac:(intros proxyFn k [<- | [<- | []]]; reflexivity))).
  vm_compute. reflexivity.
Defined.

(** ** App: what a refresh does to the state *)

Lemma fetchParkingData_world p4 (w : World) :
  exists evs, (fetchParkingData p4 w).2 = logged w evs.
Proof.
  unfold fetchParkingData, bind.
  pose proof (fetchTaipeiData_world p4 w) as H1.
  destruct (fetchTaipeiData p4 w) as [tpcData w1]. simpl in H1. subst w1.
  destruct (fetchNewTaipeiData_world p4 (logged w [EvFetch TPC_DESC_URL None;
                                                   EvFetch TPC_AVAIL_URL None]))
    as (evs & Hw).
  destruct (fetchNewTaipeiData p4 _) as [ntpcData w2]. simpl in Hw. subst w2.
  rewrite logged_logged.
  destruct (length _ =? 0)%nat; eauto.
Qed.

Lemma loadData_eq p4 (s : App.State) (w : World) :
  (App.loadData p4 s w).1
  = App.setLoading false
      match (fetchParkingData p4 w).1 with
      | Ok data =>
          App.setError None
            (App.setLastUpdated (Some (now (fetchParkingData p4 w).2))
               (App.setParkingData data (App.setLoading true s)))
      | Throw _ => App.setError (Some App.loadError) (App.setLoading true s)
      end.
Proof.
  unfold App.loadData, bind, Date_now, ret.
  by destruct (fetchParkingData p4 w) as [r w'].
Qed.

(** X16.  After [loadData] the loading flag is down and the location is
    untouched.  When a source contributed, the list is replaced by the
    merged records, the error is cleared and the time is set, to the time
    it is once the data have arrived; when neither did, the error message
    is set and the list and time of the previous refresh stay as they
    were. *)
Theorem loadData_outcome p4 (s : App.State) (w : World) :
  let tpcData := (fetchTaipeiData p4 w).1 in
  let ntpcData := (fetchNewTaipeiData p4 (fetchTaipeiData p4 w).2).1 in
  let s' := (App.loadData p4 s w).1 in
  App.loading s' = false
  /\ App.userLocation s' = App.userLocation s
  /\ App.locating s' = App.locating s
  /\ (tpcData ++ ntpcData <> [] ->
      App.parkingData s' = tpcData ++ ntpcData
      /\ App.error s' = None
      /\ App.lastUpdated s' = Some (now (fetchParkingData p4 w).2))
  /\ (tpcData = [] -> ntpcData = [] ->
      App.parkingData s' = App.parkingData s
      /\ App.error s' = Some App.loadError
      /\ App.lastUpdated s' = App.lastUpdated s).
Proof.
  intros tpcData ntpcData s'. unfold s'. rewrite loadData_eq, fetchParkingData_eq.
  cbv zeta. fold tpcData ntpcData.
  destruct (tpcData ++ ntpcData) as [| r l] eqn:E; cbn [length Nat.eqb].
  - by repeat split.
  - do 3 (split; [done |]). split; [done |].
    intros Ht Hn. rewrite Ht, Hn in E. discriminate.
Qed.

Lemma loadData_outcome_witness :
  App.parkingData (App.loadData p4_taipei sample_state dead_world).1 = [sample_P1]
  /\ App.error (App.loadData p4_taipei sample_state dead_world).1 = Some App.loadError
  /\ App.lastUpdated (App.loadData p4_taipei sample_state dead_world).1
     = Some 1600000000000.
Proof.
  apply (proj2 (proj2 (proj2 (proj2 (loadData_outcome p4_taipei sample_state dead_world)))));
    vm_compute; reflexivity.
Defined.

(** X17.  A refresh never puts an empty list on the map: once lots are
    shown they stay shown, whatever the network does, and a state left
    without an error after a refresh has lots to show. *)
Theorem loadData_never_empties_the_map p4 (s : App.State) (w : World) :
  let s' := (App.loadData p4 s w).1 in
  (App.parkingData s <> [] -> App.parkingData s' <> [])
  /\ (App.error s' = None -> App.parkingData s' <> [])
  /\ (App.parkingData s' = App.parkingData s \/ App.error s' = None).
Proof.
  intros s'. unfold s'. rewrite loadData_eq, fetchParkingData_eq. cbv zeta.
  destruct ((fetchTaipeiData p4 w).1 ++ _) as [| r l]; cbn [length Nat.eqb].
  - repeat split; try done. by left.
  - repeat split; try done. by right.
Qed.

Lemma loadData_never_empties_the_map_witness :
  App.parkingData (App.loadData p4_taipei sample_state dead_world).1 <> [].
Proof.
  apply (proj1 (loadData_never_empties_the_map p4_taipei sample_state dead_world)).
  discriminate.
Defined.

(** ** The cost of a refresh *)

(** X18.  Whatever the network answers, one run of [fetchParkingData]
    makes at most 226 requests (2 for Taipei, 112 for each dataset of New
    Taipei) and pauses for at most 96 s in all. *)
Theorem refresh_total_cost p4 (w : World) :
  exists evs,
    (fetchParkingData p4 w).2 = logged w evs
    /\ (fetchCount evs <= 226)%nat
    /\ 0 <= pauseTotal evs <= 96000.
Proof.
  unfold fetchParkingData, bind.
  pose proof (fetchTaipeiData_world p4 w) as H1.
  destruct (fetchTaipeiData p4 w) as [tpcData w1]. simpl in H1. subst w1.
  set (w1 := logged w [EvFetch TPC_DESC_URL None; EvFetch TPC_AVAIL_URL None]).
  rewrite fetchNewTaipeiData_eq. cbv zeta.
  destruct (fetchPages_budget NTPC_DESC_BASE_URL (now w1) 15 0 [] w1 eq_refl)
    as (evs1 & Hw1 & Hc1 & Hp1).
  rewrite Hw1.
  destruct (fetchPages_budget NTPC_AVAIL_BASE_URL (now w1) 15 0 [] (logged w1 evs1)
              eq_refl) as (evs2 & Hw2 & Hc2 & Hp2).
  rewrite Hw2.
  exists ([EvFetch TPC_DESC_URL None; EvFetch TPC_AVAIL_URL None] ++ evs1 ++ evs2).
  split.
  - unfold w1. rewrite !logged_logged, <- ?app_assoc.
    by destruct (length _ =? 0)%nat.
  - rewrite !fetchCount_app, !pauseTotal_app.
    change (fetchCount [EvFetch TPC_DESC_URL None; EvFetch TPC_AVAIL_URL None])
      with 2%nat.
    change (pauseTotal [EvFetch TPC_DESC_URL None; EvFetch TPC_AVAIL_URL None])
      with 0.
    lia.
Qed.
